(** * Google Maps MCP adapter: shallow embedding of [src/index.ts]

    The adapter is a stateless translation layer: a tool-call request is
    routed by name to one of seven handlers; each handler issues a single
    HTTP request and reshapes the JSON answer into a [ToolResult].

    The embedding keeps the JavaScript semantics that the handlers rely on:
    dynamically typed values, truthiness, property access that throws on
    [undefined] and [null], property lookup through [Object.prototype],
    exceptions, and [JSON.stringify] dropping [undefined] members.

    Conventions.
    - A JavaScript string is a [string]; its characters are the code units
      below 256.
    - A JavaScript number is the rational it denotes ([Q]), [VNaN] or an
      infinity ([VInf]). [parseInt] rounds the integer it reads to the
      nearest double ([nearestDouble]); [toFixed1] and [Number_toString]
      work on the exact rational, which is what JavaScript prints for the
      integers used below but not at the ties of binary rounding nor for
      numbers printed with an exponent.
    - A computation that may throw is a [Result]. A handler, which also
      talks to the network and to the console, is an [IO]: its outcome
      together with the trace of what it did.
    - The network is a function from requests to answers ([fetch] of [Env]).
      A [URL] is kept as the text it was constructed from and the
      parameters appended to it afterwards; how that text is parsed into
      path, query and fragment is not modelled.

    Definitions come first; the properties start at "Properties". *)

From Stdlib Require Import String Ascii List ZArith QArith Qround Qabs Bool Lia.
From Stdlib Require Import DecimalString DecimalPos DecimalN.
From stdpp Require Import base list.
Import ListNotations.

Open Scope string_scope.
Open Scope Z_scope.

(** ** Characters and strings *)

Definition is_digit (c : ascii) : bool :=
  match c with
  | "0" | "1" | "2" | "3" | "4" | "5" | "6" | "7" | "8" | "9" => true
  | _ => false
  end%char.

Definition digit_value (c : ascii) : Z :=
  Z.of_N (N_of_ascii c) - 48.

(** [\s] of a regular expression and the white space [Number] and
    [parseInt] skip: TAB, LF, VT, FF, CR, SP and NBSP. *)
Definition is_space (c : ascii) : bool :=
  match N_of_ascii c with
  | 9 | 10 | 11 | 12 | 13 | 32 | 160 => true
  | _ => false
  end%N.

(** Line terminators: the characters [.] does not match. *)
Definition is_line_terminator (c : ascii) : bool :=
  match N_of_ascii c with
  | 10 | 13 => true
  | _ => false
  end%N.

Definition dquote : string := String "034"%char "".
Definition newline : string := String "010"%char "".

Fixpoint string_forall (p : ascii -> bool) (s : string) : bool :=
  match s with
  | "" => true
  | String c s' => p c && string_forall p s'
  end.

Fixpoint drop_while (p : ascii -> bool) (s : string) : string :=
  match s with
  | "" => ""
  | String c s' => if p c then drop_while p s' else s
  end.

Fixpoint take_while (p : ascii -> bool) (s : string) : string :=
  match s with
  | "" => ""
  | String c s' => if p c then String c (take_while p s') else ""
  end.

Fixpoint string_rev_onto (s acc : string) : string :=
  match s with
  | "" => acc
  | String c s' => string_rev_onto s' (String c acc)
  end.

Definition string_rev (s : string) : string := string_rev_onto s "".

Definition trim (s : string) : string :=
  string_rev (drop_while is_space (string_rev (drop_while is_space s))).

Fixpoint string_drop (n : nat) (s : string) : string :=
  match n, s with
  | O, _ => s
  | S n', String _ s' => string_drop n' s'
  | S _, "" => ""
  end.

Fixpoint repeat_string (n : nat) (pad : string) : string :=
  match n with
  | O => ""
  | S n' => pad ++ repeat_string n' pad
  end.

(** [s.padStart(n, c)] for a one-character filler [c]. *)
Definition padStart (n : nat) (c : string) (s : string) : string :=
  repeat_string (n - String.length s) c ++ s.

(** [s.replace(pat, rep)] with a string pattern: only the first occurrence
    is replaced. [rep] is never a [$]-pattern in this program. *)
Fixpoint replace_first (pat rep s : string) : string :=
  if String.prefix pat s then rep ++ string_drop (String.length pat) s
  else match s with
       | "" => ""
       | String c s' => String c (replace_first pat rep s')
       end.

(** [s.replace(/LIT.*/, '')] for a literal [LIT]: the leftmost match starts
    at the first occurrence of [LIT], and the greedy [.*] swallows the rest
    of the line. *)
Fixpoint remove_from (lit s : string) : string :=
  if String.prefix lit s
  then drop_while (fun c => negb (is_line_terminator c)) (string_drop (String.length lit) s)
  else match s with
       | "" => ""
       | String c s' => String c (remove_from lit s')
       end.

(** [s.split(sep)] for a one-character separator. *)
Fixpoint split_on (sep : ascii) (s : string) : list string :=
  match s with
  | "" => [""]
  | String c s' =>
      if Ascii.eqb c sep then "" :: split_on sep s'
      else match split_on sep s' with
           | [] => [String c ""]
           | p :: ps => String c p :: ps
           end
  end.

Fixpoint join (sep : string) (l : list string) : string :=
  match l with
  | [] => ""
  | [s] => s
  | s :: l' => s ++ sep ++ join sep l'
  end.

(** ** Numbers *)

(** Value of a string of decimal digits, most significant first. *)
Fixpoint digits_value_from (acc : Z) (s : string) : Z :=
  match s with
  | "" => acc
  | String c s' => digits_value_from (10 * acc + digit_value c) s'
  end.

Definition digits_value (s : string) : Z := digits_value_from 0 s.

Definition is_hex_digit (c : ascii) : bool :=
  let n := N_of_ascii c in
  (is_digit c || ((97 <=? n) && (n <=? 102)) || ((65 <=? n) && (n <=? 70)))%N.

Definition hex_digit_value (c : ascii) : Z :=
  let n := Z.of_N (N_of_ascii c) in
  if is_digit c then n - 48 else if 97 <=? n then n - 87 else n - 55.

Fixpoint hex_value_from (acc : Z) (s : string) : Z :=
  match s with
  | "" => acc
  | String c s' => hex_value_from (16 * acc + hex_digit_value c) s'
  end.

Definition N_to_string (n : N) : string :=
  NilZero.string_of_uint (N.to_uint n).

(** Fraction digits of [r / d] (with [0 <= r < d]) by long division, at
    most [fuel] of them. *)
Fixpoint fraction_digits (fuel : nat) (r d : Z) : string :=
  match fuel with
  | O => ""
  | S fuel' =>
      if r =? 0 then ""
      else String (ascii_of_N (Z.to_N (48 + (10 * r) / d)))
                  (fraction_digits fuel' ((10 * r) mod d) d)
  end.

(** [Number::toString] on the rationals with a short decimal expansion;
    the exponent forms of very large and very small numbers are not
    reproduced. *)
Definition Number_toString (q : Q) : string :=
  let n := Z.abs (Qnum q) in
  let d := Z.pos (Qden q) in
  let frac := fraction_digits 20 (n mod d) d in
  (if Qnum q <? 0 then "-" else "")
    ++ N_to_string (Z.to_N (n / d))
    ++ (if String.eqb frac "" then "" else "." ++ frac).

(** [x.toFixed(1)] on the exact rational: the nearest tenth, ties away
    from zero. JavaScript rounds the double, which at a tie such as 1.15
    lies on one side of it. *)
Definition toFixed1 (q : Q) : string :=
  let tenths := Qfloor (Qabs q * 10 + (1 # 2)) in
  (if Qnum q <? 0 then "-" else "")
    ++ N_to_string (Z.to_N (tenths / 10)) ++ "." ++ N_to_string (Z.to_N (tenths mod 10)).

(** The integer that [parseInt(s)], called without a radix, reads from
    [s]; [None] when it reads none. *)
Definition mathInt (s : string) : option Z :=
  let t := drop_while is_space s in
  let '(negative, u) :=
    match t with
    | String "-"%char r => (true, r)
    | String "+"%char r => (false, r)
    | _ => (false, t)
    end in
  let decimal :=
    let d := take_while is_digit u in
    if String.eqb d "" then None else Some (digits_value d) in
  let magnitude :=
    match u with
    | String "0"%char (String x r) =>
        if Ascii.eqb x "x"%char || Ascii.eqb x "X"%char then
          let h := take_while is_hex_digit r in
          if String.eqb h "" then None else Some (hex_value_from 0 h)
        else decimal
    | _ => decimal
    end in
  option_map (fun m => if negative then - m else m) magnitude.

(** The double nearest to the natural number [n], ties to the even
    significand; [None] when that is beyond the largest double. Up to
    [2 ^ 53] every natural number is a double. *)
Definition nearestDouble (n : Z) : option Z :=
  if n <=? 2 ^ 53 then Some n
  else
    let e := Z.log2 n - 52 in
    let q := n / 2 ^ e in
    let r := n mod 2 ^ e in
    let half := 2 ^ (e - 1) in
    let q' := if (half <? r) || ((r =? half) && Z.odd q) then q + 1 else q in
    if q' * 2 ^ e <? 2 ^ 1024 then Some (q' * 2 ^ e) else None.

(** An unsigned decimal literal: [digits], [digits.], [digits.digits] or
    [.digits]. *)
Definition unsigned_decimal (u : string) : option Q :=
  let ip := take_while is_digit u in
  match drop_while is_digit u with
  | "" => if String.eqb ip "" then None else Some (inject_Z (digits_value ip))
  | String "."%char fr =>
      if string_forall is_digit fr && negb (String.eqb ip "" && String.eqb fr "")
      then Some (inject_Z (digits_value ip)
                 + Qmake (digits_value fr) (Z.to_pos (10 ^ Z.of_nat (String.length fr))))%Q
      else None
  | _ => None
  end.

(** [Number(s)] on signed decimal literals surrounded by white space;
    [None] is [NaN]. This is the whole of [Number] on the texts that
    [coordRegex] lets through to it; exponents, radix prefixes and
    [Infinity] are not recognised. *)
Definition Number_ofString (s : string) : option Q :=
  let t := trim s in
  match t with
  | "" => Some 0%Q
  | String "-"%char u => option_map Qopp (unsigned_decimal u)
  | String "+"%char u => unsigned_decimal u
  | _ => unsigned_decimal t
  end.

(** ** Exceptions *)

(** What a [catch] clause can receive: an [Error] instance with its
    [message], or any other value, of which only [String(error)] is ever
    observed. *)
Inductive thrown : Type :=
| ErrorInstance (message : string)
| NonError (shown : string).

(** [error instanceof Error ? error.message : String(error)] *)
Definition thrown_message (e : thrown) : string :=
  match e with
  | ErrorInstance m => m
  | NonError s => s
  end.

Inductive Result (A : Type) : Type :=
| Ok (a : A)
| Throw (e : thrown).
Arguments Ok {A} a.
Arguments Throw {A} e.

Definition bind {A B : Type} (r : Result A) (k : A -> Result B) : Result B :=
  match r with
  | Ok a => k a
  | Throw e => Throw e
  end.

Notation "'let*' x ':=' c 'in' k" := (bind c (fun x => k))
  (at level 10, x pattern, c at level 100, k at level 200).

Fixpoint mapM {A B : Type} (f : A -> Result B) (l : list A) : Result (list B) :=
  match l with
  | [] => Ok []
  | x :: l' =>
      let* y := f x in
      let* ys := mapM f l' in
      Ok (y :: ys)
  end.

(** The engine's own errors, with V8's wording. *)
Definition cannot_read (of_what prop : string) : thrown :=
  ErrorInstance ("Cannot read properties of " ++ of_what ++ " (reading '" ++ prop ++ "')").

Definition cannot_set (of_what prop : string) : thrown :=
  ErrorInstance ("Cannot set properties of " ++ of_what ++ " (setting '" ++ prop ++ "')").

Definition not_a_function (expr : string) : thrown :=
  ErrorInstance (expr ++ " is not a function").

Definition cannot_destructure (prop expr of_what : string) : thrown :=
  ErrorInstance ("Cannot destructure property '" ++ prop ++ "' of '" ++ expr
                 ++ "' as it is " ++ of_what ++ ".").

Definition invalid_array_length : thrown := ErrorInstance "Invalid array length".

(** ** JavaScript values *)

#[warnings="-register-all"]
Inductive value : Type :=
| VUndef
| VNull
| VBool (b : bool)
| VNum (q : Q)
| VNaN
| VInf (negative : bool)
| VStr (s : string)
| VArr (items : list value)
| VObj (fields : list (string * value))
| VBuiltin (name : string).   (* a built-in function reached through a prototype *)

Definition truthy (v : value) : bool :=
  match v with
  | VUndef | VNull | VNaN => false
  | VBool b => b
  | VNum q => negb (Qeq_bool q 0)
  | VStr s => negb (String.eqb s "")
  | VInf _ | VArr _ | VObj _ | VBuiltin _ => true
  end.

Definition nullish (v : value) : bool :=
  match v with
  | VUndef | VNull => true
  | _ => false
  end.

(** [a || b] and [a ?? b], for a right operand that cannot throw. *)
Definition or_else (a b : value) : value := if truthy a then a else b.
Definition coalesce (a b : value) : value := if nullish a then b else a.

Fixpoint ToString (v : value) : string :=
  match v with
  | VUndef => "undefined"
  | VNull => "null"
  | VBool true => "true"
  | VBool false => "false"
  | VNum q => Number_toString q
  | VNaN => "NaN"
  | VInf false => "Infinity"
  | VInf true => "-Infinity"
  | VStr s => s
  | VArr l => join "," (map (fun x => if nullish x then "" else ToString x) l)
  | VObj _ => "[object Object]"
  | VBuiltin f => "function " ++ f ++ "() { [native code] }"
  end.

Definition number (o : option Q) : value :=
  match o with
  | Some q => VNum q
  | None => VNaN
  end.

(** [ToNumber]: the result is [VNum], [VNaN] or [VInf]. *)
Definition ToNumber (v : value) : value :=
  match v with
  | VUndef | VObj _ | VBuiltin _ => VNaN
  | VNull | VBool false => VNum 0
  | VBool true => VNum 1
  | VNum _ | VNaN | VInf _ => v
  | VStr _ | VArr _ => number (Number_ofString (ToString v))
  end.

(** [parseInt(s)]: the double nearest to the integer read from [s], an
    infinity when that is beyond the doubles, [NaN] when no integer is
    read. *)
Definition parseInt (s : string) : value :=
  match mathInt s with
  | None => VNaN
  | Some m =>
      match nearestDouble (Z.abs m) with
      | Some d => VNum (inject_Z (if m <? 0 then - d else d))
      | None => VInf (m <? 0)
      end
  end.

(** *** Property lookup *)

Fixpoint assoc {A : Type} (k : string) (fs : list (string * A)) : option A :=
  match fs with
  | [] => None
  | (k', v) :: fs' => if String.eqb k k' then Some v else assoc k fs'
  end.

Definition mem (k : string) (ks : list string) : bool :=
  existsb (String.eqb k) ks.

(** The properties every object inherits from [Object.prototype]. *)
Definition objectPrototype : list string :=
  [ "constructor"; "__defineGetter__"; "__defineSetter__"; "hasOwnProperty";
    "__lookupGetter__"; "__lookupSetter__"; "isPrototypeOf";
    "propertyIsEnumerable"; "toString"; "valueOf"; "toLocaleString" ].

Definition arrayPrototype : list string :=
  [ "at"; "concat"; "copyWithin"; "fill"; "find"; "findIndex"; "findLast";
    "findLastIndex"; "lastIndexOf"; "pop"; "push"; "reverse"; "shift";
    "unshift"; "slice"; "sort"; "splice"; "includes"; "indexOf"; "join";
    "keys"; "entries"; "values"; "forEach"; "filter"; "flat"; "flatMap";
    "map"; "every"; "some"; "reduce"; "reduceRight"; "toReversed";
    "toSorted"; "toSpliced"; "with" ].

Definition stringPrototype : list string :=
  [ "anchor"; "at"; "big"; "blink"; "bold"; "charAt"; "charCodeAt";
    "codePointAt"; "concat"; "endsWith"; "fontcolor"; "fontsize"; "fixed";
    "includes"; "indexOf"; "isWellFormed"; "italics"; "lastIndexOf"; "link";
    "localeCompare"; "match"; "matchAll"; "normalize"; "padEnd"; "padStart";
    "repeat"; "replace"; "replaceAll"; "search"; "slice"; "small"; "split";
    "strike"; "sub"; "substr"; "substring"; "sup"; "startsWith";
    "toWellFormed"; "trim"; "trimStart"; "trimLeft"; "trimEnd"; "trimRight";
    "toLocaleLowerCase"; "toLocaleUpperCase"; "toLowerCase"; "toUpperCase" ].

Definition numberPrototype : list string :=
  [ "toExponential"; "toFixed"; "toPrecision" ].

Definition functionPrototype : list string :=
  [ "apply"; "bind"; "call"; "name"; "length"; "prototype"; "arguments"; "caller" ].

(** A canonical array index: the decimal numeral of an integer below
    [2^32 - 1], without sign, fraction or leading zero. *)
Definition array_index (k : string) : option nat :=
  if negb (String.eqb k "") && string_forall is_digit k
     && String.eqb k (N_to_string (Z.to_N (digits_value k)))
     && (digits_value k <? 4294967295)
  then Some (Z.to_nat (digits_value k))
  else None.

Definition inherited (own : list string) (k : string) : value :=
  if mem k own || mem k objectPrototype then VBuiltin k else VUndef.

(** [v[k]] for a [v] that is neither [undefined] nor [null]. What is
    reached through a prototype is kept as a [VBuiltin] whatever its kind:
    the program never looks inside one. *)
Definition getField (v : value) (k : string) : value :=
  match v with
  | VUndef | VNull => VUndef
  | VObj fs =>
      match assoc k fs with
      | Some x => x
      | None => if String.eqb k "__proto__" then VObj [] else inherited [] k
      end
  | VArr l =>
      match array_index k with
      | Some i => default VUndef (l !! i)
      | None =>
          if String.eqb k "length" then VNum (inject_Z (Z.of_nat (length l)))
          else if String.eqb k "__proto__" then VArr []
          else inherited arrayPrototype k
      end
  | VStr s =>
      match array_index k with
      | Some i =>
          match String.get i s with
          | Some c => VStr (String c "")
          | None => VUndef
          end
      | None =>
          if String.eqb k "length" then VNum (inject_Z (Z.of_nat (String.length s)))
          else inherited stringPrototype k
      end
  | VNum _ | VNaN | VInf _ => inherited numberPrototype k
  | VBool _ => inherited [] k
  | VBuiltin _ => inherited functionPrototype k
  end.

Definition describe_nullish (v : value) : string :=
  match v with
  | VNull => "null"
  | _ => "undefined"
  end.

(** [v.k]: throws a [TypeError] on [undefined] and [null]. *)
Definition getProp (v : value) (k : string) : Result value :=
  if nullish v then Throw (cannot_read (describe_nullish v) k)
  else Ok (getField v k).

(** [v?.k] *)
Definition optProp (v : value) (k : string) : value :=
  if nullish v then VUndef else getField v k.

(** [v.map(f)]; [expr] is the source text of the callee, as quoted by the
    engine when it is not callable. *)
Definition callMap (expr : string) (v : value) (f : value -> Result value)
  : Result value :=
  match v with
  | VUndef | VNull => Throw (cannot_read (describe_nullish v) "map")
  | VArr l => let* ys := mapM f l in Ok (VArr ys)
  | _ => Throw (not_a_function (expr ++ ".map"))
  end.

(** [v?.map(f)] *)
Definition optCallMap (expr : string) (v : value) (f : value -> Result value)
  : Result value :=
  if nullish v then Ok VUndef else callMap expr v f.

(** [v.replace(pat, '')] with a string pattern [pat]. *)
Definition callReplace (expr : string) (v : value) (pat : string) : Result string :=
  match v with
  | VUndef | VNull => Throw (cannot_read (describe_nullish v) "replace")
  | VStr s => Ok (replace_first pat "" s)
  | _ => Throw (not_a_function (expr ++ ".replace"))
  end.

(** ** [JSON.stringify] *)

Fixpoint filter_map {A B : Type} (f : A -> option B) (l : list A) : list B :=
  match l with
  | [] => []
  | x :: l' =>
      match f x with
      | Some y => y :: filter_map f l'
      | None => filter_map f l'
      end
  end.

(** The document [JSON.stringify] writes for a value: members whose value
    is [undefined] or a function are dropped, such array elements, [NaN]
    and the infinities become [null]. [None] is the [undefined] that [JSON.stringify] returns
    for a value that has no JSON form. *)
Fixpoint JSON_prune (v : value) : option value :=
  match v with
  | VUndef | VBuiltin _ => None
  | VNaN | VInf _ => Some VNull
  | VArr l => Some (VArr (map (fun x => default VNull (JSON_prune x)) l))
  | VObj fs =>
      Some (VObj (filter_map
                    (fun kv => option_map (pair (fst kv)) (JSON_prune (snd kv))) fs))
  | _ => Some v
  end.

Definition hex_digit (n : N) : ascii :=
  ascii_of_N (if (n <? 10)%N then 48 + n else 87 + n)%N.

Definition JSON_quote_char (c : ascii) : string :=
  let n := N_of_ascii c in
  match n with
  | 34 => "\" ++ dquote
  | 92 => "\\"
  | 8 => "\b"
  | 9 => "\t"
  | 10 => "\n"
  | 12 => "\f"
  | 13 => "\r"
  | _ =>
      if (n <? 32)%N
      then "\u00" ++ String (hex_digit (n / 16)) (String (hex_digit (n mod 16)) "")
      else String c ""
  end%N.

Fixpoint JSON_quote_chars (s : string) : string :=
  match s with
  | "" => ""
  | String c s' => JSON_quote_char c ++ JSON_quote_chars s'
  end.

Definition JSON_quote (s : string) : string :=
  dquote ++ JSON_quote_chars s ++ dquote.

(** Text of a pruned document; [gap] is the indentation unit (empty for the
    compact form) and [indent] the current indentation. *)
Fixpoint JSON_render (gap indent : string) (v : value) : string :=
  let inner := indent ++ gap in
  let wrap (opening closing : string) (parts : list string) : string :=
    match parts with
    | [] => opening ++ closing
    | _ =>
        if String.eqb gap ""
        then opening ++ join "," parts ++ closing
        else opening ++ newline ++ inner
               ++ join ("," ++ newline ++ inner) parts
               ++ newline ++ indent ++ closing
    end in
  match v with
  | VUndef | VNull | VNaN | VInf _ | VBuiltin _ => "null"
  | VBool true => "true"
  | VBool false => "false"
  | VNum q => Number_toString q
  | VStr s => JSON_quote s
  | VArr l => wrap "[" "]" (map (JSON_render gap inner) l)
  | VObj fs =>
      wrap "{" "}"
        (map (fun kv =>
                JSON_quote (fst kv) ++ (if String.eqb gap "" then ":" else ": ")
                  ++ JSON_render gap inner (snd kv)) fs)
  end.

(** [JSON.stringify(v, null, space)]. Every call site passes an object
    literal, for which the result is a string. *)
Definition JSON_stringify (space : nat) (v : value) : string :=
  match JSON_prune v with
  | Some doc => JSON_render (repeat_string space " ") "" doc
  | None => "undefined"
  end.

(** ** Regular expressions

    The program only ever calls [test] on a pattern anchored at both ends
    and free of back-references, so matching is membership of the whole
    string in the language of the pattern; it is decided here with
    derivatives. *)

Inductive regex : Type :=
| Void
| Eps
| Cls (p : ascii -> bool)
| Seq (r1 r2 : regex)
| Alt (r1 r2 : regex)
| Star (r : regex).

Definition Chr (c : ascii) : regex := Cls (Ascii.eqb c).
Definition Opt (r : regex) : regex := Alt r Eps.
Definition Plus (r : regex) : regex := Seq r (Star r).

Definition in_range (lo hi c : ascii) : bool :=
  ((N_of_ascii lo <=? N_of_ascii c) && (N_of_ascii c <=? N_of_ascii hi))%N.

Fixpoint Lit (s : string) : regex :=
  match s with
  | "" => Eps
  | String c s' => Seq (Chr c) (Lit s')
  end.

Fixpoint nullable (r : regex) : bool :=
  match r with
  | Void | Cls _ => false
  | Eps | Star _ => true
  | Seq r1 r2 => nullable r1 && nullable r2
  | Alt r1 r2 => nullable r1 || nullable r2
  end.

Fixpoint deriv (c : ascii) (r : regex) : regex :=
  match r with
  | Void | Eps => Void
  | Cls p => if p c then Eps else Void
  | Seq r1 r2 =>
      if nullable r1 then Alt (Seq (deriv c r1) r2) (deriv c r2)
      else Seq (deriv c r1) r2
  | Alt r1 r2 => Alt (deriv c r1) (deriv c r2)
  | Star r1 => Seq (deriv c r1) (Star r1)
  end.

Fixpoint regex_test (r : regex) (s : string) : bool :=
  match s with
  | "" => nullable r
  | String c s' => regex_test (deriv c r) s'
  end.

(** The language of a pattern. *)
Inductive Matches : regex -> string -> Prop :=
| MEps : Matches Eps ""
| MCls p c : p c = true -> Matches (Cls p) (String c "")
| MSeq r1 r2 s1 s2 : Matches r1 s1 -> Matches r2 s2 -> Matches (Seq r1 r2) (s1 ++ s2)
| MAltL r1 r2 s : Matches r1 s -> Matches (Alt r1 r2) s
| MAltR r1 r2 s : Matches r2 s -> Matches (Alt r1 r2) s
| MStarNil r : Matches (Star r) ""
| MStarCons r s1 s2 : Matches r s1 -> Matches (Star r) s2 -> Matches (Star r) (s1 ++ s2).

Definition sign : regex := Cls (fun c => Ascii.eqb c "-" || Ascii.eqb c "+")%char.
Definition digit : regex := Cls is_digit.
Definition fraction : regex := Seq (Chr ".") (Plus digit).
Definition zeros : regex := Seq (Chr ".") (Plus (Chr "0")).

(** [([1-8]?\d(\.\d+)?|90(\.0+)?)] *)
Definition latitudePattern : regex :=
  Alt (Seq (Opt (Cls (in_range "1" "8"))) (Seq digit (Opt fraction)))
      (Seq (Lit "90") (Opt zeros)).

(** [(180(\.0+)?|((1[0-7]\d)|([1-9]?\d))(\.\d+)?)] *)
Definition longitudePattern : regex :=
  Alt (Seq (Lit "180") (Opt zeros))
      (Seq (Alt (Seq (Chr "1") (Seq (Cls (in_range "0" "7")) digit))
                (Seq (Opt (Cls (in_range "1" "9"))) digit))
           (Opt fraction)).

(** [/^[-+]?([1-8]?\d(\.\d+)?|90(\.0+)?),\s*[-+]?(180(\.0+)?|((1[0-7]\d)|([1-9]?\d))(\.\d+)?)$/] *)
Definition coordRegex : regex :=
  Seq (Opt sign)
    (Seq latitudePattern
       (Seq (Chr ",")
          (Seq (Star (Cls is_space))
             (Seq (Opt sign) longitudePattern)))).

(** ** The outside world *)

(** A URL object: [href] is the text given to [new URL], [searchParams]
    the pairs added to it with [searchParams.append], in order. The text
    is kept as written: a [?] or [#] inside it, which [new URL] reads as
    the start of a query or a fragment, stays part of [href]. *)
Record URL : Type := {
  href : string;
  searchParams : list (string * string)
}.

Record HttpRequest : Type := {
  url : URL;
  method : string;
  headers : list (string * string);
  body : option string
}.

(** What the program observes of a response: [json()] and [text()] may
    reject. *)
Record Response : Type := {
  status : Z;
  statusText : string;
  json : Result value;
  body_text : Result string
}.

Definition ok (r : Response) : bool :=
  (200 <=? status r) && (status r <=? 299).

Record Env : Type := {
  GOOGLE_MAPS_API_KEY : string;
  fetch : HttpRequest -> Result Response
}.

Inductive event : Type :=
| Fetched (request : HttpRequest)
| ConsoleError (line : string).

(** A handler: its outcome, and what it did to the outside world. *)
Definition IO (A : Type) : Type := (Result A * list event)%type.

Definition io_bind {A B : Type} (m : IO A) (k : A -> IO B) : IO B :=
  match m with
  | (Ok a, t) => let '(r, t') := k a in (r, (t ++ t')%list)
  | (Throw e, t) => (Throw e, t)
  end.

Notation "'let!' x ':=' c 'in' k" := (io_bind c (fun x => k))
  (at level 10, x pattern, c at level 100, k at level 200).

Definition lift {A : Type} (r : Result A) : IO A := (r, []).

Definition do_fetch (env : Env) (request : HttpRequest) : IO Response :=
  (fetch env request, [Fetched request]).

Definition console_error (line : string) : IO unit :=
  (Ok tt, [ConsoleError line]).

(** [try { m } catch (e) { h e }] *)
Definition try_catch {A : Type} (m : IO A) (h : thrown -> IO A) : IO A :=
  match m with
  | (Ok a, t) => (Ok a, t)
  | (Throw e, t) => let '(r, t') := h e in (r, (t ++ t')%list)
  end.

Definition get (u : URL) : HttpRequest :=
  {| url := u; method := "GET"; headers := []; body := None |}.

(** ** Tool results *)

Record ContentItem : Type := {
  type : string;
  text : string
}.

Record ToolResult : Type := {
  content : list ContentItem;
  isError : bool
}.

Definition result (is_error : bool) (t : string) : ToolResult :=
  {| content := [ {| type := "text"; text := t |} ]; isError := is_error |}.

Definition is_string (v : value) (s : string) : bool :=
  match v with
  | VStr t => String.eqb t s
  | _ => false
  end.

(** ** Handlers *)

(** [getPriceLevelValue]: a lookup in an object literal, which also finds
    what the literal inherits from [Object.prototype]. *)
Definition priceLevels : list (string * value) :=
  [ ("PRICE_LEVEL_FREE", VNum 0);
    ("PRICE_LEVEL_INEXPENSIVE", VNum 1);
    ("PRICE_LEVEL_MODERATE", VNum 2);
    ("PRICE_LEVEL_EXPENSIVE", VNum 3);
    ("PRICE_LEVEL_VERY_EXPENSIVE", VNum 4) ].

Definition priceLevelMap : value := VObj priceLevels.

Definition getPriceLevelValue (priceLevel : value) : value :=
  coalesce (getField priceLevelMap (ToString priceLevel)) (VNum 0).

Definition handleGeocode (env : Env) (address : value) : IO ToolResult :=
  let url := {| href := "https://maps.googleapis.com/maps/api/geocode/json";
                searchParams := [ ("address", ToString address);
                                  ("key", GOOGLE_MAPS_API_KEY env) ] |} in
  let! response := do_fetch env (get url) in
  let! data := lift (json response) in
  lift (
    let* status := getProp data "status" in
    if negb (is_string status "OK") then
      Ok (result true
            ("Geocoding failed: "
               ++ ToString (or_else (getField data "error_message") status)))
    else
      let* results := getProp data "results" in
      let* first := getProp results "0" in
      let* geometry := getProp first "geometry" in
      let* location := getProp geometry "location" in
      Ok (result false
            (JSON_stringify 2
               (VObj [ ("location", location);
                       ("formatted_address", getField first "formatted_address");
                       ("place_id", getField first "place_id") ])))).

Definition handleReverseGeocode (env : Env) (latitude longitude : value)
  : IO ToolResult :=
  let url := {| href := "https://maps.googleapis.com/maps/api/geocode/json";
                searchParams := [ ("latlng", ToString latitude ++ "," ++ ToString longitude);
                                  ("key", GOOGLE_MAPS_API_KEY env) ] |} in
  let! response := do_fetch env (get url) in
  let! data := lift (json response) in
  lift (
    let* status := getProp data "status" in
    if negb (is_string status "OK") then
      Ok (result true
            ("Reverse geocoding failed: "
               ++ ToString (or_else (getField data "error_message") status)))
    else
      let* results := getProp data "results" in
      let* first := getProp results "0" in
      let* formatted_address := getProp first "formatted_address" in
      Ok (result false
            (JSON_stringify 2
               (VObj [ ("formatted_address", formatted_address);
                       ("place_id", getField first "place_id");
                       ("address_components", getField first "address_components") ])))).

Definition placeSearchRequestBody (query location radius : value) : value :=
  VObj ([ ("textQuery", query) ]
          ++ if truthy location && truthy radius
             then [ ("locationBias",
                     VObj [ ("circle",
                             VObj [ ("center",
                                     VObj [ ("latitude", getField location "latitude");
                                            ("longitude", getField location "longitude") ]);
                                    ("radius", radius) ]) ]) ]
             else [])%list.

(** One entry of [places] in the answer of [handlePlaceSearch]. *)
Definition reshapePlace (place : value) : Result value :=
  let* displayName := getProp place "displayName" in
  let* location := getProp place "location" in
  Ok (VObj [ ("name", optProp displayName "text");
             ("formatted_address", getField place "formattedAddress");
             ("location", VObj [ ("lat", optProp location "latitude");
                                 ("lng", optProp location "longitude") ]);
             ("place_id", getField place "id");
             ("rating", getField place "rating");
             ("types", getField place "types") ]).

Definition handlePlaceSearch (env : Env) (query location radius : value)
  : IO ToolResult :=
  let url := {| href := "https://places.googleapis.com/v1/places:searchText";
                searchParams := [] |} in
  let requestBody := placeSearchRequestBody query location radius in
  let! response :=
    do_fetch env
      {| url := url;
         method := "POST";
         headers := [ ("Content-Type", "application/json");
                      ("X-Goog-Api-Key", GOOGLE_MAPS_API_KEY env);
                      ("X-Goog-FieldMask",
                       "places.displayName,places.formattedAddress,places.location,places.id,places.rating,places.types") ];
         body := Some (JSON_stringify 0 requestBody) |} in
  let! data := lift (json response) in
  lift (
    let* places := getProp data "places" in
    if negb (truthy places) then
      Ok (result true
            ("Place search failed: "
               ++ ToString (or_else (optProp (getField data "error") "message")
                                    (VStr "Unknown error"))))
    else
      let* reshaped := callMap "data.places" places reshapePlace in
      Ok (result false (JSON_stringify 2 (VObj [ ("places", reshaped) ])))).

(** [`${String(hour).padStart(2, '0')}${String(minute).padStart(2, '0')}`] *)
Definition periodTime (hour minute : value) : value :=
  VStr (padStart 2 "0" (ToString hour) ++ padStart 2 "0" (ToString minute)).

Definition reshapePeriod (period : value) : Result value :=
  let* open := getProp period "open" in
  let close := getField period "close" in
  Ok (VObj [ ("open", VObj [ ("day", optProp open "day");
                             ("time", periodTime (optProp open "hour")
                                                 (optProp open "minute")) ]);
             ("close",
              if truthy close
              then VObj [ ("day", getField close "day");
                          ("time", periodTime (getField close "hour")
                                              (getField close "minute")) ]
              else VNull) ]).

Definition reshapeReview (review : value) : Result value :=
  let* authorAttribution := getProp review "authorAttribution" in
  Ok (VObj [ ("author_name", or_else (optProp authorAttribution "displayName") (VStr ""));
             ("author_url", or_else (optProp authorAttribution "uri") (VStr ""));
             ("profile_photo_url", or_else (optProp authorAttribution "photoUri") (VStr ""));
             ("rating", or_else (getField review "rating") (VNum 0));
             ("relative_time_description",
              or_else (getField review "relativePublishTimeDescription") (VStr ""));
             ("text", or_else (optProp (getField review "text") "text") (VStr ""));
             ("time", or_else (getField review "publishTime") (VStr ""));
             ("google_maps_uri", or_else (getField review "googleMapsUri") (VStr "")) ]).

(** [photo.name.replace('places/', '').replace(/\/photos\/.*/, '')] *)
Definition photoReference (name : value) : Result string :=
  let* stripped := callReplace "photo.name" name "places/" in
  Ok (remove_from "/photos/" stripped).

Definition htmlAttribution (attr : value) : Result value :=
  let* uri := getProp attr "uri" in
  Ok (VStr ("<a href=" ++ dquote ++ ToString uri ++ dquote ++ ">"
              ++ ToString (getField attr "displayName") ++ "</a>")).

Definition reshapePhoto (photo : value) : Result value :=
  let* name := getProp photo "name" in
  let* photo_reference := photoReference name in
  let* attributions :=
    optCallMap "photo.authorAttributions" (getField photo "authorAttributions")
      htmlAttribution in
  Ok (VObj [ ("photo_reference", VStr photo_reference);
             ("height", getField photo "heightPx");
             ("width", getField photo "widthPx");
             ("html_attributions", or_else attributions (VArr [])) ]).

(** The members of [formattedData], given the place and the parts of it
    whose reshaping may throw. *)
Definition placeDetailsFields
    (placeData displayName viewportBox opening_hours reviews photos : value)
  : list (string * value) :=
  let field := getField placeData in
  let location := field "location" in
  let plusCode := field "plusCode" in
  let priceLevel := field "priceLevel" in
  let currentOpeningHours := field "currentOpeningHours" in
  let paymentOptions := field "paymentOptions" in
  let accessibilityOptions := field "accessibilityOptions" in
  let flag (v : value) (k : string) := or_else (getField v k) (VBool false) in
  [ ("name", or_else (optProp displayName "text") (VStr ""));
    ("place_id", field "id");
    ("formatted_address", or_else (field "formattedAddress") (VStr ""));
    ("formatted_phone_number", or_else (field "nationalPhoneNumber") (VStr ""));
    ("international_phone_number", or_else (field "internationalPhoneNumber") (VStr ""));
    ("website", or_else (field "websiteUri") (VStr ""));
    ("rating", or_else (field "rating") (VNum 0));
    ("user_ratings_total", or_else (field "userRatingCount") (VNum 0));
    ("url", or_else (field "googleMapsUri") (VStr ""));
    ("address_components", or_else (field "addressComponents") (VArr []));
    ("geometry",
     VObj [ ("location",
             if truthy location
             then VObj [ ("lat", getField location "latitude");
                         ("lng", getField location "longitude") ]
             else VNull);
            ("viewport", viewportBox) ]);
    ("types", or_else (field "types") (VArr []));
    ("primary_type", or_else (field "primaryType") (VStr ""));
    ("editorial_summary", or_else (optProp (field "editorialSummary") "text") (VStr ""));
    ("icon", or_else (field "iconMaskBaseUri") (VStr ""));
    ("icon_background_color", or_else (field "iconBackgroundColor") (VStr ""));
    ("plus_code",
     if truthy plusCode
     then VObj [ ("global_code", getField plusCode "globalCode");
                 ("compound_code", getField plusCode "compoundCode") ]
     else VNull);
    ("business_status", or_else (field "businessStatus") (VStr ""));
    ("price_level", if truthy priceLevel then getPriceLevelValue priceLevel else VNum 0);
    ("opening_hours", opening_hours);
    ("current_opening_hours",
     if truthy currentOpeningHours
     then VObj [ ("open_now", getField currentOpeningHours "openNow");
                 ("weekday_text", getField currentOpeningHours "weekdayDescriptions") ]
     else VNull);
    ("reviews", or_else reviews (VArr []));
    ("photos", or_else photos (VArr []));
    ("dine_in", flag placeData "dineIn");
    ("takeout", flag placeData "takeout");
    ("delivery", flag placeData "delivery");
    ("reservable", flag placeData "reservable");
    ("serves_breakfast", flag placeData "servesBreakfast");
    ("serves_lunch", flag placeData "servesLunch");
    ("serves_dinner", flag placeData "servesDinner");
    ("serves_brunch", flag placeData "servesBrunch");
    ("payment_options",
     if truthy paymentOptions
     then VObj [ ("accepts_credit_cards", flag paymentOptions "acceptsCreditCards");
                 ("accepts_debit_cards", flag paymentOptions "acceptsDebitCards");
                 ("accepts_cash_only", flag paymentOptions "acceptsCashOnly");
                 ("accepts_nfc", flag paymentOptions "acceptsNfc") ]
     else VObj []);
    ("accessibility_options",
     if truthy accessibilityOptions
     then VObj [ ("wheelchair_accessible_entrance",
                  flag accessibilityOptions "wheelchairAccessibleEntrance");
                 ("wheelchair_accessible_parking",
                  flag accessibilityOptions "wheelchairAccessibleParking");
                 ("wheelchair_accessible_restroom",
                  flag accessibilityOptions "wheelchairAccessibleRestroom");
                 ("wheelchair_accessible_seating",
                  flag accessibilityOptions "wheelchairAccessibleSeating") ]
     else VObj []) ].

(** [placeData.viewport ? { northeast: ..., southwest: ... } : null] *)
Definition reshapeViewport (viewport : value) : Result value :=
  if truthy viewport then
    let* highLat := getProp (getField viewport "high") "latitude" in
    let* highLng := getProp (getField viewport "high") "longitude" in
    let* lowLat := getProp (getField viewport "low") "latitude" in
    let* lowLng := getProp (getField viewport "low") "longitude" in
    Ok (VObj [ ("northeast", VObj [ ("lat", highLat); ("lng", highLng) ]);
               ("southwest", VObj [ ("lat", lowLat); ("lng", lowLng) ]) ])
  else Ok VNull.

(** [placeData.regularOpeningHours ? { open_now, weekday_text, periods } : null] *)
Definition reshapeOpeningHours (regularOpeningHours : value) : Result value :=
  if truthy regularOpeningHours then
    let* periods :=
      optCallMap "placeData.regularOpeningHours.periods"
        (getField regularOpeningHours "periods") reshapePeriod in
    Ok (VObj [ ("open_now", getField regularOpeningHours "openNow");
               ("weekday_text", getField regularOpeningHours "weekdayDescriptions");
               ("periods", or_else periods (VArr [])) ])
  else Ok VNull.

(** The object [formattedData] that [handlePlaceDetails] builds from the
    upstream place; its members are evaluated in the order of the object
    literal. *)
Definition formatPlaceDetails (placeData : value) : Result value :=
  let* displayName := getProp placeData "displayName" in
  let* viewportBox := reshapeViewport (getField placeData "viewport") in
  let* opening_hours := reshapeOpeningHours (getField placeData "regularOpeningHours") in
  let* reviews :=
    optCallMap "placeData.reviews" (getField placeData "reviews") reshapeReview in
  let* photos :=
    optCallMap "placeData.photos" (getField placeData "photos") reshapePhoto in
  Ok (VObj (placeDetailsFields placeData displayName viewportBox opening_hours
              reviews photos)).

Definition placeDetailsFieldMask : string :=
  join ","
    [ "name"; "id"; "displayName"; "types"; "primaryType";
      "primaryTypeDisplayName"; "formattedAddress"; "shortFormattedAddress";
      "addressComponents"; "nationalPhoneNumber"; "internationalPhoneNumber";
      "location"; "viewport"; "rating"; "userRatingCount"; "googleMapsUri";
      "websiteUri"; "regularOpeningHours"; "currentOpeningHours";
      "photos"; "businessStatus"; "priceLevel"; "reviews";
      "paymentOptions"; "accessibilityOptions"; "reservable";
      "dineIn"; "takeout"; "delivery"; "servesBreakfast"; "servesLunch";
      "servesDinner"; "servesBrunch"; "editorialSummary"; "plusCode";
      "iconMaskBaseUri"; "iconBackgroundColor" ].

(** The [try] block of [handlePlaceDetails]. *)
Definition placeDetailsAttempt (env : Env) (place_id : value) : IO ToolResult :=
  let url := {| href := "https://places.googleapis.com/v1/places/" ++ ToString place_id;
                searchParams := [] |} in
  let! response :=
    do_fetch env
      {| url := url;
         method := "GET";
         headers := [ ("X-Goog-Api-Key", GOOGLE_MAPS_API_KEY env);
                      ("X-Goog-FieldMask", placeDetailsFieldMask) ];
         body := None |} in
  let! _ := console_error ("Place details response status: "
                             ++ Number_toString (inject_Z (status response))) in
  if negb (ok response) then
    let! errorDetails :=
      try_catch
        (let! errorText := lift (body_text response) in
         let! _ := console_error ("Error response body: " ++ errorText) in
         lift (Ok (String.substring 0 200 errorText)))
        (fun _ => lift (Ok "Could not read error details")) in
    lift (Ok (result true
                ("Place details request failed: HTTP "
                   ++ Number_toString (inject_Z (status response)) ++ " - "
                   ++ statusText response ++ newline ++ "Details: " ++ errorDetails)))
  else
    let! placeData := lift (json response) in
    let! formattedData := lift (formatPlaceDetails placeData) in
    lift (Ok (result false (JSON_stringify 2 formattedData))).

Definition handlePlaceDetails (env : Env) (place_id : value) : IO ToolResult :=
  try_catch (placeDetailsAttempt env place_id)
    (fun error =>
       let! _ := console_error ("Place details error: " ++ thrown_message error) in
       lift (Ok (result true
                   ("Place details request failed: " ++ thrown_message error)))).

(** *** Routes: travel modes and waypoints *)

Definition travelModeMap : value :=
  VObj [ ("driving", VStr "DRIVE");
         ("walking", VStr "WALK");
         ("bicycling", VStr "BICYCLE");
         ("transit", VStr "TRANSIT");
         ("two_wheeler", VStr "TWO_WHEELER") ].

(** A parameter declared [mode = "driving"]. *)
Definition defaulted (v d : value) : value :=
  match v with
  | VUndef => d
  | _ => v
  end.

(** [travelModeMap[mode] || "DRIVE"] *)
Definition googleTravelMode (mode : value) : value :=
  or_else (getField travelModeMap (ToString mode)) (VStr "DRIVE").

(** [googleTravelMode === "DRIVE" || googleTravelMode === "TWO_WHEELER"] *)
Definition trafficAware (travelMode : value) : bool :=
  is_string travelMode "DRIVE" || is_string travelMode "TWO_WHEELER".

(** [const [lat, lng] = input.split(',').map(Number)] *)
Definition splitLatLng (expr : string) (input : value) : Result (value * value) :=
  match input with
  | VUndef | VNull => Throw (cannot_read (describe_nullish input) "split")
  | VStr s =>
      let parts := map (fun p => number (Number_ofString p)) (split_on "," s) in
      Ok (default VUndef (parts !! 0%nat), default VUndef (parts !! 1%nat))
  | _ => Throw (not_a_function (expr ++ ".split"))
  end.

(** The classification of an origin or destination: a coordinate pair when
    [coordRegex] accepts its text, an address otherwise. *)
Definition waypointOf (expr : string) (input : value) : Result value :=
  if regex_test coordRegex (ToString input) then
    let* ll := splitLatLng expr input in
    Ok (VObj [ ("location",
                VObj [ ("latLng", VObj [ ("latitude", fst ll);
                                         ("longitude", snd ll) ]) ]) ])
  else Ok (VObj [ ("address", input) ]).

Definition withRoutingPreference (travelMode : value) (fields : list (string * value))
  : list (string * value) :=
  if trafficAware travelMode
  then (fields ++ [ ("routingPreference", VStr "TRAFFIC_AWARE") ])%list
  else fields.

(** *** Distance matrix *)

Definition distanceMatrixRequestBody (origins destinations mode : value)
  : Result value :=
  let travelMode := googleTravelMode (defaulted mode (VStr "driving")) in
  let* originInputs :=
    callMap "origins" origins
      (fun origin => let* w := waypointOf "origin" origin in
                     Ok (VObj [ ("waypoint", w) ])) in
  let* destinationInputs :=
    callMap "destinations" destinations
      (fun destination => let* w := waypointOf "destination" destination in
                          Ok (VObj [ ("waypoint", w) ])) in
  Ok (VObj (withRoutingPreference travelMode
              [ ("origins", originInputs);
                ("destinations", destinationInputs);
                ("travelMode", travelMode) ])).

(** [`${(distanceMeters / 1000).toFixed(1)} km`] *)
Definition kilometres (distanceMeters : value) : string :=
  match ToNumber distanceMeters with
  | VNum q => toFixed1 (q / 1000)%Q ++ " km"
  | VInf negative => ToString (VInf negative) ++ " km"
  | _ => "NaN km"
  end.

(** The element stored for one entry of the route matrix. *)
Definition matrixElement (item : value) : Result value :=
  let* status := getProp item "status" in
  let duration := getField item "duration" in
  let distanceMeters := getField item "distanceMeters" in
  let* durationText :=
    if truthy duration
    then let* t := callReplace "item.duration" duration "s" in Ok (VStr t)
    else Ok (VStr "Unknown") in
  let* durationValue :=
    if truthy distanceMeters
    then let* t := callReplace "item.duration" duration "s" in Ok (parseInt t)
    else Ok (VNum 0) in
  Ok (VObj [ ("status", or_else status (VStr "OK"));
             ("duration", VObj [ ("text", durationText); ("value", durationValue) ]);
             ("distance",
              VObj [ ("text", if truthy distanceMeters
                              then VStr (kilometres distanceMeters)
                              else VStr "Unknown");
                     ("value", distanceMeters) ]) ]).

Definition rowObject (elements : list value) : value :=
  VObj [ ("elements", VArr elements) ].

(** [elements[key] = v] on an array, for an object [v]: an index inside the
    array overwrites, an index beyond it extends the array, [length] is
    rejected, and any other key leaves the elements alone. *)
Definition arraySet (elements : list value) (key : string) (v : value)
  : Result (list value) :=
  match array_index key with
  | Some j =>
      if (j <? length elements)%nat then Ok (<[j := v]> elements)
      else Ok (elements ++ replicate (j - length elements) VUndef ++ [v])%list
  | None =>
      if String.eqb key "length" then Throw invalid_array_length
      else Ok elements
  end.

(** [resultMatrix[originIdx].elements[destIdx] = element], the right-hand
    side being evaluated after the target and before the store. *)
Definition matrixStore (rows : list (list value)) (originIdx destIdx : value)
    (element : Result value) : Result (list (list value)) :=
  let row := getField (VArr (map rowObject rows)) (ToString originIdx) in
  let* elements := getProp row "elements" in
  let* v := element in
  match array_index (ToString originIdx), elements with
  | Some i, VArr els =>
      let* els' := arraySet els (ToString destIdx) v in
      Ok (<[i := els']> rows)
  | _, _ => Throw (cannot_set (describe_nullish elements) (ToString destIdx))
  end.

Definition storeItem (rows : list (list value)) (item : value)
  : Result (list (list value)) :=
  let* originIdx := getProp item "originIndex" in
  let destIdx := getField item "destinationIndex" in
  matrixStore rows originIdx destIdx (matrixElement item).

Fixpoint foldM {A S : Type} (f : S -> A -> Result S) (s : S) (l : list A)
  : Result S :=
  match l with
  | [] => Ok s
  | x :: l' => let* s' := f s x in foldM f s' l'
  end.

(** The reassembly of the flat answer [data] into a matrix with one row per
    origin and one element per destination. *)
Definition reassemble (originCount destinationCount : nat) (data : value)
  : Result (list (list value)) :=
  let resultMatrix := replicate originCount (replicate destinationCount VNull) in
  match data with
  | VUndef | VNull => Throw (cannot_read (describe_nullish data) "forEach")
  | VArr items => foldM storeItem resultMatrix items
  | _ => Throw (not_a_function "data.forEach")
  end.

Definition array_length (v : value) : nat :=
  match v with
  | VArr l => length l
  | _ => 0
  end.

Definition handleDistanceMatrix (env : Env) (origins destinations mode : value)
  : IO ToolResult :=
  let url := {| href := "https://routes.googleapis.com/distanceMatrix/v2:computeRouteMatrix";
                searchParams := [] |} in
  let! requestBody := lift (distanceMatrixRequestBody origins destinations mode) in
  let! response :=
    do_fetch env
      {| url := url;
         method := "POST";
         headers := [ ("Content-Type", "application/json");
                      ("X-Goog-Api-Key", GOOGLE_MAPS_API_KEY env);
                      ("X-Goog-FieldMask",
                       "originIndex,destinationIndex,status,distanceMeters,duration") ];
         body := Some (JSON_stringify 0 requestBody) |} in
  let! data := lift (json response) in
  lift (
    let* failed :=
      if negb (status response =? 200) then Ok true
      else let* first := getProp data "0" in
           Ok (truthy first && truthy (getField first "error")) in
    if failed then
      let* first := getProp data "0" in
      Ok (result true
            ("Distance matrix request failed: "
               ++ ToString (or_else (optProp (optProp first "error") "message")
                              (or_else (VStr (statusText response))
                                       (VStr "Unknown error")))))
    else
      let* resultMatrix :=
        reassemble (array_length origins) (array_length destinations) data in
      Ok (result false
            (JSON_stringify 2
               (VObj [ ("origin_addresses", origins);
                       ("destination_addresses", destinations);
                       ("rows", VArr (map rowObject resultMatrix)) ])))).

(** *** Elevation *)

Definition handleElevation (env : Env) (locations : value) : IO ToolResult :=
  let! points :=
    lift (callMap "locations" locations
            (fun loc => let* latitude := getProp loc "latitude" in
                        Ok (VStr (ToString latitude ++ ","
                                    ++ ToString (getField loc "longitude"))))) in
  let locationString :=
    match points with
    | VArr l => join "|" (map ToString l)
    | _ => ""
    end in
  let url := {| href := "https://maps.googleapis.com/maps/api/elevation/json";
                searchParams := [ ("locations", locationString);
                                  ("key", GOOGLE_MAPS_API_KEY env) ] |} in
  let! response := do_fetch env (get url) in
  let! data := lift (json response) in
  lift (
    let* status := getProp data "status" in
    if negb (is_string status "OK") then
      Ok (result true
            ("Elevation request failed: "
               ++ ToString (or_else (getField data "error_message") status)))
    else
      let* results :=
        callMap "data.results" (getField data "results")
          (fun r => let* elevation := getProp r "elevation" in
                    Ok (VObj [ ("elevation", elevation);
                               ("location", getField r "location");
                               ("resolution", getField r "resolution") ])) in
      Ok (result false (JSON_stringify 2 (VObj [ ("results", results) ])))).

(** *** Directions *)

Definition directionsRequestBody (origin destination mode : value) : Result value :=
  let travelMode := googleTravelMode (defaulted mode (VStr "driving")) in
  let* originInput := waypointOf "origin" origin in
  let* destinationInput := waypointOf "destination" destination in
  Ok (VObj (withRoutingPreference travelMode
              [ ("origin", originInput);
                ("destination", destinationInput);
                ("travelMode", travelMode);
                ("computeAlternativeRoutes", VBool false);
                ("routeModifiers",
                 VObj [ ("avoidTolls", VBool false);
                        ("avoidHighways", VBool false);
                        ("avoidFerries", VBool false) ]);
                ("languageCode", VStr "en-US") ])).

(** [`${(d / 1000).toFixed(1)} km`] or the fallback text. *)
Definition distanceText (distanceMeters : value) (unknown : string) : value :=
  if truthy distanceMeters then VStr (kilometres distanceMeters) else VStr unknown.

Definition reshapeStep (travelMode : value) (step : value) : Result value :=
  let* navigationInstruction := getProp step "navigationInstruction" in
  let staticDuration := getField step "staticDuration" in
  let* durationText :=
    if truthy staticDuration
    then let* t := callReplace "step.staticDuration" staticDuration "s" in Ok (VStr t)
    else Ok (VStr "Unknown duration") in
  let* durationValue :=
    if truthy staticDuration
    then let* t := callReplace "step.staticDuration" staticDuration "s" in
         Ok (parseInt t)
    else Ok (VNum 0) in
  Ok (VObj [ ("instructions",
              or_else (optProp navigationInstruction "instructions")
                (or_else (optProp (optProp (getField step "travelAdvisory") "text") "text")
                         (VStr "")));
             ("distance",
              VObj [ ("text", distanceText (getField step "distanceMeters") "Unknown distance");
                     ("value", getField step "distanceMeters") ]);
             ("duration", VObj [ ("text", durationText); ("value", durationValue) ]);
             ("travel_mode", travelMode) ]).

Definition reshapeRoute (travelMode : value) (route : value) : Result value :=
  let* description := getProp route "description" in
  let duration := getField route "duration" in
  let staticDuration := getField route "staticDuration" in
  let* durationText :=
    if truthy duration
    then let* t := callReplace "route.duration" duration "s" in Ok (VStr t)
    else Ok (VStr "Unknown duration") in
  let* durationValue :=
    if truthy staticDuration
    then let* t := callReplace "route.staticDuration" staticDuration "s" in
         Ok (parseInt t)
    else Ok (VNum 0) in
  let* steps :=
    optCallMap "route.legs?.[0]?.steps"
      (optProp (optProp (getField route "legs") "0") "steps")
      (reshapeStep travelMode) in
  Ok (VObj [ ("summary", or_else description (VStr "Route"));
             ("distance",
              VObj [ ("text", distanceText (getField route "distanceMeters") "Unknown distance");
                     ("value", getField route "distanceMeters") ]);
             ("duration", VObj [ ("text", durationText); ("value", durationValue) ]);
             ("steps", or_else steps (VArr [])) ]).

Definition handleDirections (env : Env) (origin destination mode : value)
  : IO ToolResult :=
  let url := {| href := "https://routes.googleapis.com/directions/v2:computeRoutes";
                searchParams := [] |} in
  let travelMode := googleTravelMode (defaulted mode (VStr "driving")) in
  let! requestBody := lift (directionsRequestBody origin destination mode) in
  let! response :=
    do_fetch env
      {| url := url;
         method := "POST";
         headers := [ ("Content-Type", "application/json");
                      ("X-Goog-Api-Key", GOOGLE_MAPS_API_KEY env);
                      ("X-Goog-FieldMask",
                       "routes.description,routes.distanceMeters,routes.duration,routes.staticDuration,routes.legs.steps.distanceMeters,routes.legs.steps.staticDuration,routes.legs.steps.navigationInstruction,routes.legs.steps.travelAdvisory") ];
         body := Some (JSON_stringify 0 requestBody) |} in
  let! data := lift (json response) in
  lift (
    let* failed :=
      if negb (status response =? 200) then Ok true
      else let* error := getProp data "error" in Ok (truthy error) in
    if failed then
      let* error := getProp data "error" in
      Ok (result true
            ("Directions request failed: "
               ++ ToString (or_else (optProp error "message")
                              (or_else (VStr (statusText response))
                                       (VStr "No routes found")))))
    else
      let* routes :=
        optCallMap "data.routes" (getField data "routes") (reshapeRoute travelMode) in
      Ok (result false
            (JSON_stringify 2 (VObj [ ("routes", or_else routes (VArr [])) ])))).

(** ** Dispatcher *)

Record CallToolRequest : Type := {
  name : string;
  arguments : value
}.

(** The names of [MAPS_TOOLS], in the order they are listed. *)
Definition MAPS_TOOLS : list string :=
  [ "maps_geocode"; "maps_reverse_geocode"; "maps_search_places";
    "maps_place_details"; "maps_distance_matrix"; "maps_elevation";
    "maps_directions" ].

(** [const { prop } = request.params.arguments] *)
Definition destructure (args : value) (prop : string) : Result value :=
  if nullish args
  then Throw (cannot_destructure prop "request.params.arguments" (describe_nullish args))
  else Ok (getField args prop).

(** The [switch] inside the [try] of the call-tool request handler. *)
Definition dispatch (env : Env) (request : CallToolRequest) : IO ToolResult :=
  let args := arguments request in
  let tool := name request in
  if String.eqb tool "maps_geocode" then
    let! address := lift (destructure args "address") in
    handleGeocode env address
  else if String.eqb tool "maps_reverse_geocode" then
    let! latitude := lift (destructure args "latitude") in
    handleReverseGeocode env latitude (getField args "longitude")
  else if String.eqb tool "maps_search_places" then
    let! query := lift (destructure args "query") in
    handlePlaceSearch env query (getField args "location") (getField args "radius")
  else if String.eqb tool "maps_place_details" then
    let! place_id := lift (destructure args "place_id") in
    handlePlaceDetails env place_id
  else if String.eqb tool "maps_distance_matrix" then
    let! origins := lift (destructure args "origins") in
    handleDistanceMatrix env origins (getField args "destinations") (getField args "mode")
  else if String.eqb tool "maps_elevation" then
    let! locations := lift (destructure args "locations") in
    handleElevation env locations
  else if String.eqb tool "maps_directions" then
    let! origin := lift (destructure args "origin") in
    handleDirections env origin (getField args "destination") (getField args "mode")
  else
    lift (Ok (result true ("Unknown tool: " ++ tool))).

(** The call-tool request handler: whatever [dispatch] throws becomes an
    error result. *)
Definition callTool (env : Env) (request : CallToolRequest) : IO ToolResult :=
  try_catch (dispatch env request)
    (fun error => lift (Ok (result true ("Error: " ++ thrown_message error)))).

(** ** The specification's reading of the coordinate test

    The pattern the specification quotes,
    [^-?\d{1,2}(\.\d+)?,\s*-?\d{1,3}(\.\d+)?$], together with its range
    condition on the two parsed numbers. It is compared below with
    [coordRegex], the pattern of the source. *)

Definition specCoordPattern : regex :=
  Seq (Opt (Chr "-"))
    (Seq (Seq digit (Opt digit))
       (Seq (Opt fraction)
          (Seq (Chr ",")
             (Seq (Star (Cls is_space))
                (Seq (Opt (Chr "-"))
                   (Seq (Seq digit (Opt (Seq digit (Opt digit))))
                      (Opt fraction))))))).

Definition within (lo hi : Q) (o : option Q) : bool :=
  match o with
  | Some q => Qle_bool lo q && Qle_bool q hi
  | None => false
  end.

Definition specIsCoordinate (s : string) : bool :=
  regex_test specCoordPattern s
  && match split_on "," s with
     | [lat; lng] =>
         within (-90) 90 (Number_ofString lat) && within (-180) 180 (Number_ofString lng)
     | _ => false
     end.

(** Whether a waypoint built by [waypointOf] is a coordinate pair. *)
Definition isCoordinatePair (w : Result value) : bool :=
  match w with
  | Ok (VObj [ ("location", _) ]) => true
  | _ => false
  end.

(** ** Readers for the reshaped output *)

(** Member [k] of the JSON document written for [v], if the document has
    one. *)
Definition documentMember (v : value) (k : string) : option value :=
  match JSON_prune v with
  | Some (VObj fs) => assoc k fs
  | _ => None
  end.

Definition path (v : value) (ks : list string) : value :=
  fold_left getField ks v.

(** ** Predicates and environments used in the statements *)

(** An upstream answer with status ["OK"] and no result. *)
Definition okWithoutResults (data : value) : Prop :=
  exists fields,
    data = VObj fields
    /\ assoc "status" fields = Some (VStr "OK")
    /\ assoc "results" fields = Some (VArr []).

Definition emptyResultsEnv : Env :=
  {| GOOGLE_MAPS_API_KEY := "key";
     fetch := fun _ =>
       Ok {| status := 200;
             statusText := "OK";
             json := Ok (VObj [ ("results", VArr []); ("status", VStr "OK") ]);
             body_text := Ok "" |} |}.

(** The JSON document [doc] is what a request carries when its body was
    built successfully. *)
Definition sends (requestBody : Result value) (doc : list (string * value)) : Prop :=
  exists b, requestBody = Ok b /\ JSON_prune b = Some (VObj doc).

(** The body the call-tool handler has the two Routes handlers build for
    a request: the arguments are destructured, then the handler maps the
    mode and the waypoints. *)
Definition routesRequestBody (request : CallToolRequest) : Result value :=
  let args := arguments request in
  if String.eqb (name request) "maps_distance_matrix" then
    let* origins := destructure args "origins" in
    distanceMatrixRequestBody origins (getField args "destinations") (getField args "mode")
  else
    let* origin := destructure args "origin" in
    directionsRequestBody origin (getField args "destination") (getField args "mode").

(** [v] is the number [i]. *)
Definition isIndex (v : value) (i : nat) : Prop :=
  exists q, v = VNum q /\ (q == inject_Z (Z.of_nat i))%Q.

(** An entry of the route matrix tagged with origin [i] and destination
    [j]. *)
Definition tagged (item : value) (i j : nat) : Prop :=
  isIndex (getField item "originIndex") i
  /\ isIndex (getField item "destinationIndex") j.



(** Element [j] of row [i] of a matrix. *)
Definition cell (rows : list (list value)) (i j : nat) : option value :=
  match rows !! i with
  | Some row => row !! j
  | None => None
  end.

Definition shape (n m : nat) (rows : list (list value)) : Prop :=
  length rows = n /\ Forall (fun row => length row = m) rows.

(** The largest length an array can have. *)
Definition maxArrayLength : Z := 4294967295.

(** The entries allowed in a well-formed answer for [n] origins and [m]
    destinations. *)
Definition storable (n m : nat) (item : value) : Prop :=
  nullish item = false
  /\ (exists e, matrixElement item = Ok e)
  /\ exists i j, tagged item i j /\ (i < n)%nat /\ (j < m)%nat.

(** Two entries that are not tagged with the same pair. *)
Definition distinctTags (x y : value) : Prop :=
  forall i j, tagged x i j -> ~ tagged y i j.


(** The answer in which the single entry has a distance but no duration. *)
Definition distanceOnlyEntry : value :=
  VObj [ ("originIndex", VNum 0); ("destinationIndex", VNum 0);
         ("distanceMeters", VNum 1000) ].

Definition distanceOnlyEnv : Env :=
  {| GOOGLE_MAPS_API_KEY := "key";
     fetch := fun _ =>
       Ok {| status := 200;
             statusText := "OK";
             json := Ok (VArr [ distanceOnlyEntry ]);
             body_text := Ok "" |} |}.


(** An answer with one entry of each regular form, for two origins and
    one destination. *)
Definition timedEntry : value :=
  VObj [ ("originIndex", VNum 0); ("destinationIndex", VNum 0);
         ("duration", VStr "123s"); ("distanceMeters", VNum 1500) ].

Definition untimedEntry : value :=
  VObj [ ("originIndex", VNum 1); ("destinationIndex", VNum 0) ].

Definition regularResponse : Response :=
  {| status := 200;
     statusText := "OK";
     json := Ok (VArr [ timedEntry; untimedEntry ]);
     body_text := Ok "" |}.

Definition regularEnv : Env :=
  {| GOOGLE_MAPS_API_KEY := "key"; fetch := fun _ => Ok regularResponse |}.

(** The optional upstream fields of a place that [handlePlaceDetails]
    reads with a fallback: upstream name, output key, and the value written
    when the upstream field is absent. *)
Definition placeDetailsDefaults : list (string * string * value) :=
  [ ("displayName", "name", VStr "");
    ("formattedAddress", "formatted_address", VStr "");
    ("nationalPhoneNumber", "formatted_phone_number", VStr "");
    ("internationalPhoneNumber", "international_phone_number", VStr "");
    ("websiteUri", "website", VStr "");
    ("rating", "rating", VNum 0);
    ("userRatingCount", "user_ratings_total", VNum 0);
    ("googleMapsUri", "url", VStr "");
    ("addressComponents", "address_components", VArr []);
    ("types", "types", VArr []);
    ("primaryType", "primary_type", VStr "");
    ("editorialSummary", "editorial_summary", VStr "");
    ("iconMaskBaseUri", "icon", VStr "");
    ("iconBackgroundColor", "icon_background_color", VStr "");
    ("plusCode", "plus_code", VNull);
    ("businessStatus", "business_status", VStr "");
    ("priceLevel", "price_level", VNum 0);
    ("regularOpeningHours", "opening_hours", VNull);
    ("currentOpeningHours", "current_opening_hours", VNull);
    ("reviews", "reviews", VArr []);
    ("photos", "photos", VArr []);
    ("dineIn", "dine_in", VBool false);
    ("takeout", "takeout", VBool false);
    ("delivery", "delivery", VBool false);
    ("reservable", "reservable", VBool false);
    ("servesBreakfast", "serves_breakfast", VBool false);
    ("servesLunch", "serves_lunch", VBool false);
    ("servesDinner", "serves_dinner", VBool false);
    ("servesBrunch", "serves_brunch", VBool false);
    ("paymentOptions", "payment_options", VObj []);
    ("accessibilityOptions", "accessibility_options", VObj []) ].

(** The upstream fields of a place that [handlePlaceSearch] passes through,
    with the output key of each. *)
Definition placeSearchPassThrough : list (string * string) :=
  [ ("displayName", "name");
    ("formattedAddress", "formatted_address");
    ("id", "place_id");
    ("rating", "rating");
    ("types", "types") ].

(** A place found by a text search whose optional [rating] is absent. *)
Definition unratedPlace : value :=
  VObj [ ("id", VStr "P1");
         ("displayName", VObj [ ("text", VStr "Cafe") ]);
         ("formattedAddress", VStr "1 Main St");
         ("location", VObj [ ("latitude", VNum 47); ("longitude", VNum 8) ]);
         ("types", VArr [ VStr "cafe" ]) ].

Definition unratedEnv : Env :=
  {| GOOGLE_MAPS_API_KEY := "key";
     fetch := fun _ =>
       Ok {| status := 200;
             statusText := "OK";
             json := Ok (VObj [ ("places", VArr [ unratedPlace ]) ]);
             body_text := Ok "" |} |}.

Fixpoint distinct (l : list string) : bool :=
  match l with
  | [] => true
  | k :: l' => negb (mem k l') && distinct l'
  end.

(** The text of an unsigned decimal with integer digits [ip] and fraction
    digits [fd] (none when [fd] is empty). *)
Definition decimalText (ip fd : string) : string :=
  ip ++ match fd with
        | "" => ""
        | _ => "." ++ fd
        end.

Definition notComma (c : ascii) : bool := negb (Ascii.eqb c ",").
Definition notSpace (c : ascii) : bool := negb (is_space c).

(** A coordinate pair as [waypointOf] builds it. *)
Definition latLngWaypoint (lat lng : Q) : value :=
  VObj [ ("location",
          VObj [ ("latLng", VObj [ ("latitude", VNum lat); ("longitude", VNum lng) ]) ]) ].

(** A network that is down, and an upstream whose answers are not JSON. *)
Definition networkDownEnv : Env :=
  {| GOOGLE_MAPS_API_KEY := "key";
     fetch := fun _ => Throw (ErrorInstance "network down") |}.

Definition unparsableEnv : Env :=
  {| GOOGLE_MAPS_API_KEY := "key";
     fetch := fun _ =>
       Ok {| status := 200;
             statusText := "OK";
             json := Throw (ErrorInstance "Unexpected token < in JSON at position 0");
             body_text := Ok "<html>" |} |}.

(** ** Requests, as the properties below read them *)

(** The requests a trace contains, in order. *)
Definition fetches (t : list event) : list HttpRequest :=
  filter_map (fun e => match e with
                       | Fetched rq => Some rq
                       | ConsoleError _ => None
                       end) t.

(** How a request carries the API key: the Geocoding and Elevation
    handlers append it to the URL as the parameter [key] of a plain GET;
    the Places and Routes handlers send it as the header [X-Goog-Api-Key]
    and append nothing to the URL they construct. *)
Definition keyInQuery (key : string) (rq : HttpRequest) : Prop :=
  method rq = "GET" /\ headers rq = [] /\ body rq = None
  /\ assoc "key" (searchParams (url rq)) = Some key.

Definition keyInHeader (key : string) (rq : HttpRequest) : Prop :=
  searchParams (url rq) = []
  /\ assoc "X-Goog-Api-Key" (headers rq) = Some key.

Definition legacyTools : list string :=
  [ "maps_geocode"; "maps_reverse_geocode"; "maps_elevation" ].

(** A computation that sends nothing, and one whose requests all satisfy
    [P] and number at most [n]. *)
Definition silent {A : Type} (m : IO A) : Prop := fetches (snd m) = [].

Definition requests {A : Type} (P : HttpRequest -> Prop) (n : nat) (m : IO A) : Prop :=
  Forall P (fetches (snd m)) /\ (length (fetches (snd m)) <= n)%nat.


(** An upstream that answers every request with [data], under HTTP status
    [code]. *)
Definition answering (code : Z) (reason : string) (data : value) : Env :=
  {| GOOGLE_MAPS_API_KEY := "key";
     fetch := fun _ =>
       Ok {| status := code;
             statusText := reason;
             json := Ok data;
             body_text := Ok (JSON_stringify 0 data) |} |}.

(** [v] is a string of four digits that reads as the number
    [100 * hour + minute]. *)
Definition fourDigits (hour minute : nat) (v : value) : bool :=
  match v with
  | VStr t =>
      (String.length t =? 4)%nat && string_forall is_digit t
        && (digits_value t =? Z.of_nat (100 * hour + minute))
  | _ => false
  end.

(** An entry of the route matrix whose origin is no row of a matrix with
    [n] rows: the index is missing, or it is [n] or more. *)
Definition originOutside (n : nat) (item : value) : Prop :=
  getField item "originIndex" = VUndef
  \/ exists i, isIndex (getField item "originIndex") i
               /\ (n <= i)%nat /\ Z.of_nat i < maxArrayLength.

(** ** Tool descriptors

    The descriptors the server advertises, as the object literals of the
    source. *)

Definition GEOCODE_TOOL : value :=
  VObj [ ("name", VStr "maps_geocode");
         ("description", VStr "Convert an address into geographic coordinates");
         ("inputSchema",
          VObj [ ("type", VStr "object");
                 ("properties",
                  VObj [ ("address",
                          VObj [ ("type", VStr "string");
                                 ("description", VStr "The address to geocode") ]) ]);
                 ("required", VArr [ VStr "address" ]) ]) ].

Definition REVERSE_GEOCODE_TOOL : value :=
  VObj [ ("name", VStr "maps_reverse_geocode");
         ("description", VStr "Convert coordinates into an address");
         ("inputSchema",
          VObj [ ("type", VStr "object");
                 ("properties",
                  VObj [ ("latitude",
                          VObj [ ("type", VStr "number");
                                 ("description", VStr "Latitude coordinate") ]);
                         ("longitude",
                          VObj [ ("type", VStr "number");
                                 ("description", VStr "Longitude coordinate") ]) ]);
                 ("required", VArr [ VStr "latitude"; VStr "longitude" ]) ]) ].

Definition SEARCH_PLACES_TOOL : value :=
  VObj [ ("name", VStr "maps_search_places");
         ("description", VStr "Search for places using Google Places API");
         ("inputSchema",
          VObj [ ("type", VStr "object");
                 ("properties",
                  VObj [ ("query",
                          VObj [ ("type", VStr "string");
                                 ("description", VStr "Search query") ]);
                         ("location",
                          VObj [ ("type", VStr "object");
                                 ("properties",
                                  VObj [ ("latitude", VObj [ ("type", VStr "number") ]);
                                         ("longitude", VObj [ ("type", VStr "number") ]) ]);
                                 ("description",
                                  VStr "Optional center point for the search") ]);
                         ("radius",
                          VObj [ ("type", VStr "number");
                                 ("description",
                                  VStr "Search radius in meters (max 50000)") ]) ]);
                 ("required", VArr [ VStr "query" ]) ]) ].

Definition PLACE_DETAILS_TOOL : value :=
  VObj [ ("name", VStr "maps_place_details");
         ("description", VStr "Get detailed information about a specific place");
         ("inputSchema",
          VObj [ ("type", VStr "object");
                 ("properties",
                  VObj [ ("place_id",
                          VObj [ ("type", VStr "string");
                                 ("description",
                                  VStr "The place ID to get details for") ]) ]);
                 ("required", VArr [ VStr "place_id" ]) ]) ].

(** The schema of [mode], which the two descriptors that have it write
    out in the same words. *)
Definition travelModeSchema : value :=
  VObj [ ("type", VStr "string");
         ("description",
          VStr "Travel mode (driving, walking, bicycling, transit, two_wheeler)");
         ("enum", VArr [ VStr "driving"; VStr "walking"; VStr "bicycling";
                         VStr "transit"; VStr "two_wheeler" ]) ].

Definition DISTANCE_MATRIX_TOOL : value :=
  VObj [ ("name", VStr "maps_distance_matrix");
         ("description",
          VStr "Calculate travel distance and time for multiple origins and destinations");
         ("inputSchema",
          VObj [ ("type", VStr "object");
                 ("properties",
                  VObj [ ("origins",
                          VObj [ ("type", VStr "array");
                                 ("items", VObj [ ("type", VStr "string") ]);
                                 ("description",
                                  VStr "Array of origin addresses or coordinates") ]);
                         ("destinations",
                          VObj [ ("type", VStr "array");
                                 ("items", VObj [ ("type", VStr "string") ]);
                                 ("description",
                                  VStr "Array of destination addresses or coordinates") ]);
                         ("mode", travelModeSchema) ]);
                 ("required", VArr [ VStr "origins"; VStr "destinations" ]) ]) ].

Definition ELEVATION_TOOL : value :=
  VObj [ ("name", VStr "maps_elevation");
         ("description", VStr "Get elevation data for locations on the earth");
         ("inputSchema",
          VObj [ ("type", VStr "object");
                 ("properties",
                  VObj [ ("locations",
                          VObj [ ("type", VStr "array");
                                 ("items",
                                  VObj [ ("type", VStr "object");
                                         ("properties",
                                          VObj [ ("latitude",
                                                  VObj [ ("type", VStr "number") ]);
                                                 ("longitude",
                                                  VObj [ ("type", VStr "number") ]) ]);
                                         ("required",
                                          VArr [ VStr "latitude"; VStr "longitude" ]) ]);
                                 ("description",
                                  VStr "Array of locations to get elevation for") ]) ]);
                 ("required", VArr [ VStr "locations" ]) ]) ].

Definition DIRECTIONS_TOOL : value :=
  VObj [ ("name", VStr "maps_directions");
         ("description", VStr "Get directions between two points");
         ("inputSchema",
          VObj [ ("type", VStr "object");
                 ("properties",
                  VObj [ ("origin",
                          VObj [ ("type", VStr "string");
                                 ("description",
                                  VStr "Starting point address or coordinates") ]);
                         ("destination",
                          VObj [ ("type", VStr "string");
                                 ("description",
                                  VStr "Ending point address or coordinates") ]);
                         ("mode", travelModeSchema) ]);
                 ("required", VArr [ VStr "origin"; VStr "destination" ]) ]) ].

(** The elements of [MAPS_TOOLS], whose names are listed above under that
    name, and the answer of the list-tools request handler. *)
Definition toolDescriptors : list value :=
  [ GEOCODE_TOOL; REVERSE_GEOCODE_TOOL; SEARCH_PLACES_TOOL; PLACE_DETAILS_TOOL;
    DISTANCE_MATRIX_TOOL; ELEVATION_TOOL; DIRECTIONS_TOOL ].

Definition listTools : value := VObj [ ("tools", VArr toolDescriptors) ].

(** What a descriptor declares: the name of the tool, and the names of the
    properties of its input schema, in the order they are written. *)
Definition ownKeys (v : value) : list string :=
  match v with
  | VObj fields => map fst fields
  | _ => []
  end.

Definition toolName (tool : value) : string := ToString (getField tool "name").

Definition declaredArguments (tool : value) : list string :=
  ownKeys (path tool [ "inputSchema"; "properties" ]).



(** ** Well-formed answers of the Routes API, as the statements on
    directions read them *)









(** ** Proof automation *)

Ltac io_step :=
  unfold io_bind, lift, do_fetch, console_error, try_catch; simpl.

(** * Properties *)

(** ** Dispatcher *)

Lemma name_not_listed (n k : string) :
  ~ In n MAPS_TOOLS -> In k MAPS_TOOLS -> String.eqb n k = false.
Proof.
  intros Hn Hk. destruct (String.eqb_spec n k) as [->|]; [contradiction|reflexivity].
Qed.

(** C9. A call whose tool name is not one of the seven registered names
    is answered with [isError: true] and the text ["Unknown tool: <name>"];
    nothing is fetched and nothing is logged, whatever the network would
    have answered. *)
Theorem unknown_tool_rejected (env : Env) (request : CallToolRequest) :
  ~ In (name request) MAPS_TOOLS ->
  callTool env request
  = (Ok {| content := [ {| type := "text";
                           text := "Unknown tool: " ++ name request |} ];
           isError := true |}, []).
Proof.
  intros H. unfold callTool, dispatch.
  rewrite !(name_not_listed _ _ H) by (simpl; tauto).
  reflexivity.
Qed.

Lemma unknown_tool_rejected_witness :
  ~ In "maps_nonexistent" MAPS_TOOLS
  /\ callTool {| GOOGLE_MAPS_API_KEY := "key";
                 fetch := fun _ => Throw (ErrorInstance "network down") |}
              {| name := "maps_nonexistent"; arguments := VUndef |}
     = (Ok {| content := [ {| type := "text";
                              text := "Unknown tool: maps_nonexistent" |} ];
              isError := true |}, []).
Proof.
  assert (H : ~ In "maps_nonexistent" MAPS_TOOLS).
  { simpl. intros [H|[H|[H|[H|[H|[H|[H|[]]]]]]]]; discriminate H. }
  split; [exact H|].
  exact (unknown_tool_rejected _ {| name := "maps_nonexistent"; arguments := VUndef |} H).
Defined.

Lemma try_catch_total {A : Type} (m : IO A) (h : thrown -> IO A) :
  (forall e, exists a t, h e = (Ok a, t)) ->
  exists a t, try_catch m h = (Ok a, t).
Proof.
  intros Hh. destruct m as [[a|e] t]; simpl.
  - eauto.
  - destruct (Hh e) as (a & t' & ->). eauto.
Qed.

Lemma callTool_total (env : Env) (request : CallToolRequest) :
  exists r t, callTool env request = (Ok r, t).
Proof. apply try_catch_total. intros e. simpl. eauto. Qed.

Lemma handlePlaceDetails_total (env : Env) (place_id : value) :
  exists r t, handlePlaceDetails env place_id = (Ok r, t).
Proof. apply try_catch_total. intros e. simpl. eauto. Qed.

(** What [handlePlaceDetails] itself makes of an exception raised inside
    its [try] block. *)
Lemma handlePlaceDetails_catches (env : Env) (place_id : value) (e : thrown)
    (t : list event) :
  placeDetailsAttempt env place_id = (Throw e, t) ->
  handlePlaceDetails env place_id
  = (Ok (result true ("Place details request failed: " ++ thrown_message e)),
     (t ++ [ ConsoleError ("Place details error: " ++ thrown_message e) ])%list).
Proof. intros H. unfold handlePlaceDetails. rewrite H. reflexivity. Qed.

(** When the network is down, every handler that gets as far as its
    request reports the failure. *)
Lemma network_failure_reported (env : Env) (request : CallToolRequest) (e : thrown) :
  (forall rq, fetch env rq = Throw e) ->
  exists msg t,
    callTool env request = (Ok (result true msg), t)
    /\ (forall rq, In (Fetched rq) t ->
        msg = "Error: " ++ thrown_message e
        \/ msg = "Place details request failed: " ++ thrown_message e).
Proof.
  intros Hnet. unfold callTool, dispatch.
  repeat match goal with
         | |- context [if String.eqb ?a ?b then _ else _] => destruct (String.eqb a b)
         end;
    try (destruct (destructure (arguments request) _) as [v|e0]; io_step;
         [| do 2 eexists; split; [reflexivity | intros rq []] ]).
  - unfold handleGeocode. io_step. rewrite Hnet. simpl. eauto.
  - unfold handleReverseGeocode. io_step. rewrite Hnet. simpl. eauto.
  - unfold handlePlaceSearch. io_step. rewrite Hnet. simpl. eauto.
  - unfold handlePlaceDetails, placeDetailsAttempt. io_step. rewrite Hnet. simpl. eauto.
  - unfold handleDistanceMatrix. io_step.
    destruct (distanceMatrixRequestBody _ _ _); simpl.
    + rewrite Hnet. simpl. eauto.
    + do 2 eexists; split; [reflexivity | intros rq []].
  - unfold handleElevation. io_step.
    destruct (callMap _ _ _); simpl.
    + rewrite Hnet. simpl. eauto.
    + do 2 eexists; split; [reflexivity | intros rq []].
  - unfold handleDirections. io_step.
    destruct (directionsRequestBody _ _ _); simpl.
    + rewrite Hnet. simpl. eauto.
    + do 2 eexists; split; [reflexivity | intros rq []].
  - io_step. do 2 eexists; split; [reflexivity | intros rq []].
Qed.

(** When no answer can be parsed, no call succeeds. *)
Lemma parse_failure_reported (env : Env) (request : CallToolRequest) (e : thrown) :
  (forall rq resp, fetch env rq = Ok resp -> json resp = Throw e) ->
  exists msg t, callTool env request = (Ok (result true msg), t).
Proof.
  intros Hjson. unfold callTool, dispatch.
  repeat match goal with
         | |- context [if String.eqb ?a ?b then _ else _] => destruct (String.eqb a b)
         end;
    try (destruct (destructure (arguments request) _) as [v|e0]; io_step;
         [| eauto ]).
  - unfold handleGeocode. io_step.
    destruct (fetch env _) as [resp|e1] eqn:F; simpl; [|eauto].
    rewrite (Hjson _ _ F). simpl. eauto.
  - unfold handleReverseGeocode. io_step.
    destruct (fetch env _) as [resp|e1] eqn:F; simpl; [|eauto].
    rewrite (Hjson _ _ F). simpl. eauto.
  - unfold handlePlaceSearch. io_step.
    destruct (fetch env _) as [resp|e1] eqn:F; simpl; [|eauto].
    rewrite (Hjson _ _ F). simpl. eauto.
  - unfold handlePlaceDetails, placeDetailsAttempt. io_step.
    destruct (fetch env _) as [resp|e1] eqn:F; simpl; [|eauto].
    destruct (ok resp); simpl.
    + rewrite (Hjson _ _ F). simpl. eauto.
    + destruct (body_text resp); simpl; eauto.
  - unfold handleDistanceMatrix. io_step.
    destruct (distanceMatrixRequestBody _ _ _); simpl; [|eauto].
    destruct (fetch env _) as [resp|e1] eqn:F; simpl; [|eauto].
    rewrite (Hjson _ _ F). simpl. eauto.
  - unfold handleElevation. io_step.
    destruct (callMap _ _ _); simpl; [|eauto].
    destruct (fetch env _) as [resp|e1] eqn:F; simpl; [|eauto].
    rewrite (Hjson _ _ F). simpl. eauto.
  - unfold handleDirections. io_step.
    destruct (directionsRequestBody _ _ _); simpl; [|eauto].
    destruct (fetch env _) as [resp|e1] eqn:F; simpl; [|eauto].
    rewrite (Hjson _ _ F). simpl. eauto.
  - io_step. eauto.
Qed.

(** C1. The call-tool handler always returns a tool result. Whatever the
    selected handler throws becomes [isError: true] with the text
    ["Error: <message>"]; in particular a network failure is reported with
    its message by every handler that reaches its request, and an answer
    that cannot be parsed never yields a success. *)
Theorem call_failures_become_error_results (env : Env) (request : CallToolRequest) :
  (exists r t, callTool env request = (Ok r, t))
  /\ (forall e t,
        dispatch env request = (Throw e, t) ->
        callTool env request
        = (Ok {| content := [ {| type := "text";
                                 text := "Error: " ++ thrown_message e |} ];
                 isError := true |}, t))
  /\ (forall e,
        (forall rq, fetch env rq = Throw e) ->
        exists msg t,
          callTool env request = (Ok (result true msg), t)
          /\ (forall rq, In (Fetched rq) t ->
              msg = "Error: " ++ thrown_message e
              \/ msg = "Place details request failed: " ++ thrown_message e))
  /\ (forall e,
        (forall rq resp, fetch env rq = Ok resp -> json resp = Throw e) ->
        exists msg t, callTool env request = (Ok (result true msg), t)).
Proof.
  split; [apply callTool_total|].
  split.
  { intros e t H. unfold callTool. rewrite H. simpl. rewrite app_nil_r. reflexivity. }
  split.
  - intros e. apply network_failure_reported.
  - intros e. apply parse_failure_reported.
Qed.

Lemma call_failures_become_error_results_witness :
  let request := {| name := "maps_geocode";
                    arguments := VObj [ ("address", VStr "1600 Amphitheatre Parkway") ] |} in
  callTool networkDownEnv request
  = (Ok (result true "Error: network down"),
     [ Fetched (get {| href := "https://maps.googleapis.com/maps/api/geocode/json";
                       searchParams := [ ("address", "1600 Amphitheatre Parkway");
                                         ("key", "key") ] |}) ])
  /\ (exists msg t,
        callTool networkDownEnv request = (Ok (result true msg), t)
        /\ (forall rq, In (Fetched rq) t ->
            msg = "Error: network down"
            \/ msg = "Place details request failed: network down"))
  /\ (exists msg t, callTool unparsableEnv request = (Ok (result true msg), t)).
Proof.
  intros request. split; [|split].
  - exact (proj1 (proj2 (call_failures_become_error_results networkDownEnv request))
             (ErrorInstance "network down") _ eq_refl).
  - exact (proj1 (proj2 (proj2 (call_failures_become_error_results networkDownEnv request)))
             (ErrorInstance "network down") (fun _ => eq_refl)).
  - refine (proj2 (proj2 (proj2 (call_failures_become_error_results unparsableEnv request)))
              (ErrorInstance "Unexpected token < in JSON at position 0") _).
    intros rq resp H. injection H as <-. reflexivity.
Defined.

(** ** Geocoding *)

(** C10. For [maps_geocode] and [maps_reverse_geocode], an upstream answer
    with status ["OK"] and an empty [results] list never yields a success:
    the handler reads a property of [results[0]], which is [undefined], and
    the dispatcher turns the resulting [TypeError] into an error result. *)
Theorem empty_results_never_succeed (env : Env) (request : CallToolRequest) :
  name request = "maps_geocode" \/ name request = "maps_reverse_geocode" ->
  (forall rq resp data,
      fetch env rq = Ok resp -> json resp = Ok data -> okWithoutResults data) ->
  exists msg t,
    callTool env request = (Ok (result true msg), t)
    /\ (forall rq resp data,
          In (Fetched rq) t -> fetch env rq = Ok resp -> json resp = Ok data ->
          msg = "Error: Cannot read properties of undefined (reading 'geometry')"
          \/ msg = "Error: Cannot read properties of undefined (reading 'formatted_address')").
Proof.
  intros Hname Hup. unfold callTool, dispatch.
  destruct Hname as [-> | ->]; simpl;
    (destruct (destructure (arguments request) _) as [v|e0]; io_step;
     [| do 2 eexists; split; [reflexivity | intros ? ? ? []] ]).
  - unfold handleGeocode. io_step.
    destruct (fetch env _) as [resp|e1] eqn:F; simpl.
    + destruct (json resp) as [data|e2] eqn:J; simpl.
      * destruct (Hup _ _ _ F J) as (fields & -> & Hs & Hr).
        unfold getProp. simpl. rewrite Hs, Hr. simpl.
        do 2 eexists; split; [reflexivity|]. intros; left; reflexivity.
      * do 2 eexists; split; [reflexivity|].
        intros rq resp' data [E|[]] F' J'. injection E as <-.
        rewrite F in F'. injection F' as <-. rewrite J in J'. discriminate.
    + do 2 eexists; split; [reflexivity|].
      intros rq resp' data [E|[]] F' J'. injection E as <-.
      rewrite F in F'. discriminate.
  - unfold handleReverseGeocode. io_step.
    destruct (fetch env _) as [resp|e1] eqn:F; simpl.
    + destruct (json resp) as [data|e2] eqn:J; simpl.
      * destruct (Hup _ _ _ F J) as (fields & -> & Hs & Hr).
        unfold getProp. simpl. rewrite Hs, Hr. simpl.
        do 2 eexists; split; [reflexivity|]. intros; right; reflexivity.
      * do 2 eexists; split; [reflexivity|].
        intros rq resp' data [E|[]] F' J'. injection E as <-.
        rewrite F in F'. injection F' as <-. rewrite J in J'. discriminate.
    + do 2 eexists; split; [reflexivity|].
      intros rq resp' data [E|[]] F' J'. injection E as <-.
      rewrite F in F'. discriminate.
Qed.

Lemma empty_results_never_succeed_witness :
  exists msg t,
    callTool emptyResultsEnv
      {| name := "maps_geocode"; arguments := VObj [ ("address", VStr "nowhere") ] |}
    = (Ok (result true msg), t)
    /\ (forall rq resp data,
          In (Fetched rq) t -> fetch emptyResultsEnv rq = Ok resp -> json resp = Ok data ->
          msg = "Error: Cannot read properties of undefined (reading 'geometry')"
          \/ msg = "Error: Cannot read properties of undefined (reading 'formatted_address')").
Proof.
  apply (empty_results_never_succeed emptyResultsEnv
           {| name := "maps_geocode"; arguments := VObj [ ("address", VStr "nowhere") ] |}).
  - left. reflexivity.
  - intros rq resp data F J. simpl in F. injection F as <-. simpl in J.
    injection J as <-. eexists. repeat split; reflexivity.
Defined.

(** ** Price levels *)

Lemma getPriceLevelValue_table :
  getPriceLevelValue (VStr "PRICE_LEVEL_FREE") = VNum 0
  /\ getPriceLevelValue (VStr "PRICE_LEVEL_INEXPENSIVE") = VNum 1
  /\ getPriceLevelValue (VStr "PRICE_LEVEL_MODERATE") = VNum 2
  /\ getPriceLevelValue (VStr "PRICE_LEVEL_EXPENSIVE") = VNum 3
  /\ getPriceLevelValue (VStr "PRICE_LEVEL_VERY_EXPENSIVE") = VNum 4.
Proof. repeat split; reflexivity. Qed.

(** Every string that names neither a price level nor a property of
    [Object.prototype] falls back to [0]. *)
Lemma getPriceLevelValue_fallback (s : string) :
  assoc s priceLevels = None ->
  mem s ("__proto__" :: objectPrototype) = false ->
  getPriceLevelValue (VStr s) = VNum 0.
Proof.
  intros Hown Hproto. unfold getPriceLevelValue, priceLevelMap. cbn [ToString].
  unfold getField. rewrite Hown.
  change (mem s ("__proto__" :: objectPrototype))
    with (String.eqb s "__proto__" || mem s objectPrototype) in Hproto.
  apply orb_false_iff in Hproto. destruct Hproto as [-> Hp].
  unfold inherited. rewrite Hp. reflexivity.
Qed.

(** C8 at the failing input. [priceLevelMap["constructor"]] is the function
    every object literal inherits, which is not nullish, so the fallback of
    [??] is not taken: the result is not [0], and [price_level] is absent
    from the JSON written for the place. *)
Theorem getPriceLevelValue_inherited_property :
  getPriceLevelValue (VStr "constructor") = VBuiltin "constructor"
  /\ getPriceLevelValue (VStr "constructor") <> VNum 0
  /\ exists formattedData,
       formatPlaceDetails (VObj [ ("id", VStr "P1"); ("priceLevel", VStr "constructor") ])
       = Ok formattedData
       /\ documentMember formattedData "price_level" = None
       /\ documentMember formattedData "place_id" = Some (VStr "P1").
Proof.
  split; [reflexivity|]. split; [discriminate|].
  eexists. split; [reflexivity|]. split; reflexivity.
Qed.

(** ** Photo references *)

Lemma drop_while_all (p : ascii -> bool) (s : string) :
  string_forall p s = true -> drop_while p s = "".
Proof.
  induction s as [|c s IH]; simpl; [reflexivity|].
  intros H. apply andb_true_iff in H. destruct H as [-> H]. auto.
Qed.

Lemma prefix_append (l s : string) : String.prefix l (l ++ s) = true.
Proof.
  induction l as [|c l IH]; simpl; [destruct s; reflexivity|].
  destruct (ascii_dec c c); [exact IH|congruence].
Qed.

Lemma string_drop_append (l s : string) :
  string_drop (String.length l) (l ++ s) = s.
Proof. induction l as [|c l IH]; simpl; [destruct s; reflexivity|exact IH]. Qed.

Lemma replace_first_unfold (pat rep s : string) :
  replace_first pat rep s
  = if String.prefix pat s then rep ++ string_drop (String.length pat) s
    else match s with
         | "" => ""
         | String c s' => String c (replace_first pat rep s')
         end.
Proof. destruct s; reflexivity. Qed.

Lemma remove_from_unfold (lit s : string) :
  remove_from lit s
  = if String.prefix lit s
    then drop_while (fun c => negb (is_line_terminator c))
           (string_drop (String.length lit) s)
    else match s with
         | "" => ""
         | String c s' => String c (remove_from lit s')
         end.
Proof. destruct s; reflexivity. Qed.

Lemma remove_from_photos (place photo : string) :
  string_forall (fun c => negb (Ascii.eqb c "/")) place = true ->
  string_forall (fun c => negb (is_line_terminator c)) photo = true ->
  remove_from "/photos/" (place ++ "/photos/" ++ photo) = place.
Proof.
  intros Hplace Hphoto. induction place as [|c place IH].
  - change ("" ++ "/photos/" ++ photo) with ("/photos/" ++ photo).
    rewrite remove_from_unfold, prefix_append, string_drop_append.
    apply drop_while_all. exact Hphoto.
  - simpl in Hplace. apply andb_true_iff in Hplace. destruct Hplace as [Hc Hplace].
    change ((String c place ++ "/photos/" ++ photo))
      with (String c (place ++ "/photos/" ++ photo)).
    rewrite remove_from_unfold.
    replace (String.prefix "/photos/" (String c (place ++ "/photos/" ++ photo)))
      with false.
    + f_equal. apply IH. exact Hplace.
    + cbn [String.prefix]. destruct (ascii_dec "/" c) as [<-|_]; [discriminate Hc|reflexivity].
Qed.

(** For a resource name [places/<place>/photos/<photo>], what is emitted
    as [photo_reference] is the place identifier. *)
Lemma photoReference_is_place (place photo : string) :
  string_forall (fun c => negb (Ascii.eqb c "/")) place = true ->
  string_forall (fun c => negb (is_line_terminator c)) photo = true ->
  photoReference (VStr ("places/" ++ place ++ "/photos/" ++ photo)) = Ok place.
Proof.
  intros Hplace Hphoto. unfold photoReference, callReplace, bind.
  rewrite replace_first_unfold, prefix_append, string_drop_append.
  change ("" ++ place ++ "/photos/" ++ photo) with (place ++ "/photos/" ++ photo).
  f_equal. apply remove_from_photos; assumption.
Qed.

(** C6 at the failing input. The first [replace] removes ["places/"], the
    second removes ["/photos/"] and everything after it: what remains is the
    place identifier, and the photo identifier is lost. *)
Theorem photo_reference_drops_photo_id :
  photoReference (VStr "places/ChIJN1t_tDeuEmsRUsoyG83frY4/photos/AUc7tXXkq9")
  = Ok "ChIJN1t_tDeuEmsRUsoyG83frY4"
  /\ reshapePhoto
       (VObj [ ("name", VStr "places/ChIJN1t_tDeuEmsRUsoyG83frY4/photos/AUc7tXXkq9");
               ("widthPx", VNum 4032); ("heightPx", VNum 3024) ])
     = Ok (VObj [ ("photo_reference", VStr "ChIJN1t_tDeuEmsRUsoyG83frY4");
                  ("height", VNum 3024);
                  ("width", VNum 4032);
                  ("html_attributions", VArr []) ]).
Proof. split; reflexivity. Qed.

(** ** Travel modes and routing preference *)

Lemma is_string_spec (v : value) (s : string) :
  is_string v s = true <-> v = VStr s.
Proof.
  destruct v; simpl; try (split; [discriminate|intros H; discriminate H]).
  rewrite String.eqb_eq. split; [intros ->; reflexivity|intros H; injection H; auto].
Qed.

Lemma trafficAware_spec (travelMode : value) :
  trafficAware travelMode = true
  <-> travelMode = VStr "DRIVE" \/ travelMode = VStr "TWO_WHEELER".
Proof.
  unfold trafficAware. rewrite orb_true_iff, !is_string_spec. reflexivity.
Qed.

Lemma callMap_array (expr : string) (v r : value) (f : value -> Result value) :
  callMap expr v f = Ok r -> exists xs ys, v = VArr xs /\ r = VArr ys /\ mapM f xs = Ok ys.
Proof.
  destruct v; simpl; try discriminate.
  destruct (mapM f items) as [ys|] eqn:E; simpl; [|discriminate].
  intros H. injection H as <-. eauto.
Qed.

Lemma waypointOf_object (expr : string) (input w : value) :
  waypointOf expr input = Ok w -> exists fs, w = VObj fs.
Proof.
  unfold waypointOf. destruct (regex_test _ _).
  - destruct (splitLatLng expr input); simpl; [|discriminate].
    intros H. injection H as <-. eauto.
  - intros H. injection H as <-. eauto.
Qed.

Lemma distance_matrix_document (origins destinations mode : value)
    (doc : list (string * value)) :
  sends (distanceMatrixRequestBody origins destinations mode) doc ->
  let travelMode := googleTravelMode (defaulted mode (VStr "driving")) in
  assoc "routingPreference" doc
  = (if trafficAware travelMode then Some (VStr "TRAFFIC_AWARE") else None)
  /\ assoc "travelMode" doc = JSON_prune travelMode.
Proof.
  intros (b & Hb & Hdoc) travelMode.
  unfold distanceMatrixRequestBody in Hb. fold travelMode in Hb.
  destruct (callMap "origins" _ _) as [o|] eqn:Eo; simpl in Hb; [|discriminate].
  destruct (callMap "destinations" _ _) as [d|] eqn:Ed; simpl in Hb; [|discriminate].
  injection Hb as <-.
  apply callMap_array in Eo, Ed.
  destruct Eo as (? & os & _ & -> & _), Ed as (? & ds & _ & -> & _).
  unfold withRoutingPreference in Hdoc.
  destruct (trafficAware travelMode) eqn:T; cbn in Hdoc;
    destruct (JSON_prune travelMode); cbn in Hdoc;
    injection Hdoc as <-; split; reflexivity.
Qed.

Lemma directions_document (origin destination mode : value)
    (doc : list (string * value)) :
  sends (directionsRequestBody origin destination mode) doc ->
  let travelMode := googleTravelMode (defaulted mode (VStr "driving")) in
  assoc "routingPreference" doc
  = (if trafficAware travelMode then Some (VStr "TRAFFIC_AWARE") else None)
  /\ assoc "travelMode" doc = JSON_prune travelMode.
Proof.
  intros (b & Hb & Hdoc) travelMode.
  unfold directionsRequestBody in Hb. fold travelMode in Hb.
  destruct (waypointOf "origin" _) as [o|] eqn:Eo; simpl in Hb; [|discriminate].
  destruct (waypointOf "destination" _) as [d|] eqn:Ed; simpl in Hb; [|discriminate].
  injection Hb as <-.
  apply waypointOf_object in Eo, Ed.
  destruct Eo as (os & ->), Ed as (ds & ->).
  unfold withRoutingPreference in Hdoc.
  destruct (trafficAware travelMode) eqn:T; cbn in Hdoc;
    destruct (JSON_prune travelMode); cbn in Hdoc;
    injection Hdoc as <-; split; reflexivity.
Qed.

(** The one request each of the two handlers issues carries the text of
    the body built for it; when the body cannot be built, nothing is sent. *)
Lemma routes_requests_carry_body (env : Env) (a b mode : value) :
  (forall requestBody,
      distanceMatrixRequestBody a b mode = Ok requestBody ->
      exists rq,
        snd (handleDistanceMatrix env a b mode) = [ Fetched rq ]
        /\ body rq = Some (JSON_stringify 0 requestBody))
  /\ (forall requestBody,
        directionsRequestBody a b mode = Ok requestBody ->
        exists rq,
          snd (handleDirections env a b mode) = [ Fetched rq ]
          /\ body rq = Some (JSON_stringify 0 requestBody))
  /\ (forall e, distanceMatrixRequestBody a b mode = Throw e ->
      snd (handleDistanceMatrix env a b mode) = [])
  /\ (forall e, directionsRequestBody a b mode = Throw e ->
      snd (handleDirections env a b mode) = []).
Proof.
  repeat split.
  - intros requestBody H. unfold handleDistanceMatrix. io_step. rewrite H. simpl.
    destruct (fetch env _) as [resp|]; simpl; [|eauto].
    destruct (json resp); simpl; eauto.
  - intros requestBody H. unfold handleDirections. io_step. rewrite H. simpl.
    destruct (fetch env _) as [resp|]; simpl; [|eauto].
    destruct (json resp); simpl; eauto.
  - intros e H. unfold handleDistanceMatrix. io_step. rewrite H. reflexivity.
  - intros e H. unfold handleDirections. io_step. rewrite H. reflexivity.
Qed.


Lemma bind_lift_ok {A B : Type} (a : A) (k : A -> IO B) :
  io_bind (lift (Ok a)) k = k a.
Proof. unfold io_bind, lift. destruct (k a). reflexivity. Qed.

Lemma snd_try_catch_lift {A : Type} (m : IO A) (f : thrown -> Result A) :
  snd (try_catch m (fun e => lift (f e))) = snd m.
Proof. destruct m as [[a|e] t]; [reflexivity|]. simpl. apply app_nil_r. Qed.

Lemma routing_preference_spec (travelMode : value) (doc : list (string * value)) :
  assoc "routingPreference" doc
  = (if trafficAware travelMode then Some (VStr "TRAFFIC_AWARE") else None) ->
  (assoc "routingPreference" doc = Some (VStr "TRAFFIC_AWARE")
   <-> travelMode = VStr "DRIVE" \/ travelMode = VStr "TWO_WHEELER")
  /\ (assoc "routingPreference" doc = None
      <-> ~ (travelMode = VStr "DRIVE" \/ travelMode = VStr "TWO_WHEELER")).
Proof.
  intros ->. pose proof (trafficAware_spec travelMode) as Hspec. repeat split.
  - destruct (trafficAware travelMode); [intros _; apply Hspec; reflexivity|discriminate].
  - intros H. apply Hspec in H. rewrite H. reflexivity.
  - destruct (trafficAware travelMode); [discriminate|].
    intros _ H. apply Hspec in H. discriminate H.
  - intros H. destruct (trafficAware travelMode); [|reflexivity].
    exfalso. apply H, Hspec. reflexivity.
Qed.

(** What a call to one of the two Routes tools sends: one request with
    the text of the body built for it, and nothing when the body cannot be
    built. *)
Lemma routes_call_sends (env : Env) (request : CallToolRequest) :
  name request = "maps_distance_matrix" \/ name request = "maps_directions" ->
  (forall requestBody,
      routesRequestBody request = Ok requestBody ->
      exists rq,
        snd (callTool env request) = [ Fetched rq ]
        /\ body rq = Some (JSON_stringify 0 requestBody))
  /\ (forall e, routesRequestBody request = Throw e -> snd (callTool env request) = []).
Proof.
  intros Hname. unfold callTool. rewrite snd_try_catch_lift.
  unfold dispatch, routesRequestBody, destructure.
  destruct Hname as [-> | ->]; cbn [String.eqb Ascii.eqb Bool.eqb];
    destruct (nullish (arguments request));
    try (split; [intros b H; discriminate H | intros e _; reflexivity]).
  - cbn [bind]. rewrite bind_lift_ok.
    destruct (routes_requests_carry_body env (getField (arguments request) "origins")
                (getField (arguments request) "destinations")
                (getField (arguments request) "mode")) as (Hsent & _ & Hnone & _).
    split; [exact Hsent | exact Hnone].
  - cbn [bind]. rewrite bind_lift_ok.
    destruct (routes_requests_carry_body env (getField (arguments request) "origin")
                (getField (arguments request) "destination")
                (getField (arguments request) "mode")) as (_ & Hsent & _ & Hnone).
    split; [exact Hsent | exact Hnone].
Qed.

Lemma routes_call_document (request : CallToolRequest) (requestBody : value) :
  name request = "maps_distance_matrix" \/ name request = "maps_directions" ->
  routesRequestBody request = Ok requestBody ->
  let travelMode :=
    googleTravelMode (defaulted (getField (arguments request) "mode") (VStr "driving")) in
  exists doc,
    JSON_prune requestBody = Some (VObj doc)
    /\ assoc "routingPreference" doc
       = (if trafficAware travelMode then Some (VStr "TRAFFIC_AWARE") else None)
    /\ assoc "travelMode" doc = JSON_prune travelMode.
Proof.
  intros Hname Hbody travelMode. unfold routesRequestBody, destructure in Hbody.
  destruct Hname as [E | E]; rewrite E in Hbody;
    cbn [String.eqb Ascii.eqb Bool.eqb] in Hbody;
    destruct (nullish (arguments request)); try discriminate Hbody;
    cbn [bind] in Hbody.
  - assert (Hobj : exists doc, JSON_prune requestBody = Some (VObj doc)).
    { unfold distanceMatrixRequestBody in Hbody.
      destruct (callMap "origins" _ _); cbn [bind] in Hbody; [|discriminate].
      destruct (callMap "destinations" _ _); cbn [bind] in Hbody; [|discriminate].
      injection Hbody as <-. eexists. reflexivity. }
    destruct Hobj as [doc Hdoc]. exists doc. split; [exact Hdoc|].
    exact (distance_matrix_document _ _ _ doc
             (ex_intro _ requestBody (conj Hbody Hdoc))).
  - assert (Hobj : exists doc, JSON_prune requestBody = Some (VObj doc)).
    { unfold directionsRequestBody in Hbody.
      destruct (waypointOf "origin" _); cbn [bind] in Hbody; [|discriminate].
      destruct (waypointOf "destination" _); cbn [bind] in Hbody; [|discriminate].
      injection Hbody as <-. eexists. reflexivity. }
    destruct Hobj as [doc Hdoc]. exists doc. split; [exact Hdoc|].
    exact (directions_document _ _ _ doc
             (ex_intro _ requestBody (conj Hbody Hdoc))).
Qed.

(** C7. A call to [maps_distance_matrix] or [maps_directions] whose
    request body can be built sends exactly one request, and the body of
    that request is the JSON text of a document that has
    [routingPreference: "TRAFFIC_AWARE"] exactly when the mapped travel mode
    is ["DRIVE"] or ["TWO_WHEELER"], and has no [routingPreference] member
    otherwise. Mode ["two_wheeler"] sends [travelMode: "TWO_WHEELER"] with
    the preference; mode ["transit"] sends [travelMode: "TRANSIT"] without
    it. When the body cannot be built, nothing is sent. *)
Theorem routing_preference_iff_drive_or_two_wheeler
    (env : Env) (request : CallToolRequest) :
  name request = "maps_distance_matrix" \/ name request = "maps_directions" ->
  let mode := getField (arguments request) "mode" in
  let travelMode := googleTravelMode (defaulted mode (VStr "driving")) in
  (forall requestBody,
      routesRequestBody request = Ok requestBody ->
      exists rq doc,
        fetches (snd (callTool env request)) = [ rq ]
        /\ body rq = Some (JSON_render "" "" (VObj doc))
        /\ (assoc "routingPreference" doc = Some (VStr "TRAFFIC_AWARE")
            <-> travelMode = VStr "DRIVE" \/ travelMode = VStr "TWO_WHEELER")
        /\ (assoc "routingPreference" doc = None
            <-> ~ (travelMode = VStr "DRIVE" \/ travelMode = VStr "TWO_WHEELER"))
        /\ (mode = VStr "two_wheeler" ->
            assoc "travelMode" doc = Some (VStr "TWO_WHEELER")
            /\ assoc "routingPreference" doc = Some (VStr "TRAFFIC_AWARE"))
        /\ (mode = VStr "transit" ->
            assoc "travelMode" doc = Some (VStr "TRANSIT")
            /\ assoc "routingPreference" doc = None))
  /\ (forall e,
        routesRequestBody request = Throw e ->
        fetches (snd (callTool env request)) = []).
Proof.
  intros Hname mode travelMode.
  destruct (routes_call_sends env request Hname) as [Hsent Hnone]. split.
  - intros requestBody Hbody.
    destruct (Hsent requestBody Hbody) as (rq & Htrace & Hrq).
    destruct (routes_call_document request requestBody Hname Hbody)
      as (doc & Hdoc & Hpref & Hmode).
    fold mode in Hpref, Hmode. fold travelMode in Hpref, Hmode.
    exists rq, doc. rewrite Htrace. split; [reflexivity|].
    split; [rewrite Hrq; unfold JSON_stringify; rewrite Hdoc; reflexivity|].
    destruct (routing_preference_spec travelMode doc Hpref) as [Hiff Hnot].
    split; [exact Hiff|]. split; [exact Hnot|].
    rewrite Hpref, Hmode. subst travelMode.
    split; intros E; rewrite E; split; reflexivity.
  - intros e Hbody. rewrite (Hnone e Hbody). reflexivity.
Qed.

Lemma routing_preference_iff_drive_or_two_wheeler_witness :
  (exists rq doc,
      fetches (snd (callTool regularEnv
                      {| name := "maps_distance_matrix";
                         arguments :=
                           VObj [ ("origins", VArr [ VStr "Zurich"; VStr "47.05,8.31" ]);
                                  ("destinations", VArr [ VStr "Bern" ]);
                                  ("mode", VStr "two_wheeler") ] |}))
      = [ rq ]
      /\ body rq = Some (JSON_render "" "" (VObj doc))
      /\ assoc "travelMode" doc = Some (VStr "TWO_WHEELER")
      /\ assoc "routingPreference" doc = Some (VStr "TRAFFIC_AWARE"))
  /\ (exists rq doc,
        fetches (snd (callTool regularEnv
                        {| name := "maps_directions";
                           arguments := VObj [ ("origin", VStr "Zurich");
                                               ("destination", VStr "Bern");
                                               ("mode", VStr "transit") ] |}))
        = [ rq ]
        /\ body rq = Some (JSON_render "" "" (VObj doc))
        /\ assoc "travelMode" doc = Some (VStr "TRANSIT")
        /\ assoc "routingPreference" doc = None).
Proof.
  split.
  - destruct (proj1 (routing_preference_iff_drive_or_two_wheeler regularEnv
                       {| name := "maps_distance_matrix";
                          arguments :=
                            VObj [ ("origins", VArr [ VStr "Zurich"; VStr "47.05,8.31" ]);
                                   ("destinations", VArr [ VStr "Bern" ]);
                                   ("mode", VStr "two_wheeler") ] |}
                       (or_introl eq_refl)) _ eq_refl)
      as (rq & doc & Hsent & Hbody & _ & _ & Htwo & _).
    exists rq, doc. split; [exact Hsent|]. split; [exact Hbody|]. exact (Htwo eq_refl).
  - destruct (proj1 (routing_preference_iff_drive_or_two_wheeler regularEnv
                       {| name := "maps_directions";
                          arguments := VObj [ ("origin", VStr "Zurich");
                                              ("destination", VStr "Bern");
                                              ("mode", VStr "transit") ] |}
                       (or_intror eq_refl)) _ eq_refl)
      as (rq & doc & Hsent & Hbody & _ & _ & _ & Htransit).
    exists rq, doc. split; [exact Hsent|]. split; [exact Hbody|]. exact (Htransit eq_refl).
Defined.

(** ** Numerals and array indices *)

Lemma digits_value_from_acc (d : Decimal.uint) (acc : positive) :
  digits_value_from (Z.pos acc) (NilEmpty.string_of_uint d)
  = Z.pos (Pos.of_uint_acc d acc).
Proof.
  revert acc. induction d; intros acc; simpl; try reflexivity;
    rewrite <- IHd; f_equal; unfold digit_value; simpl; lia.
Qed.

Lemma digits_value_of_uint (d : Decimal.uint) :
  digits_value (NilEmpty.string_of_uint d) = Z.of_N (Pos.of_uint d).
Proof.
  unfold digits_value. induction d; simpl; try reflexivity;
    try exact IHd; apply (digits_value_from_acc d).
Qed.

Lemma string_of_uint_digits (d : Decimal.uint) :
  string_forall is_digit (NilEmpty.string_of_uint d) = true.
Proof. induction d; simpl; auto. Qed.

Lemma N_to_string_unfold (n : N) :
  N_to_string n = NilEmpty.string_of_uint (N.to_uint n) /\ N_to_string n <> "".
Proof.
  unfold N_to_string. destruct n as [|p]; [split; [reflexivity|discriminate]|].
  simpl. pose proof (DecimalPos.Unsigned.to_uint_nonnil p) as H.
  destruct (Pos.to_uint p); [contradiction| ..]; (split; [reflexivity|discriminate]).
Qed.

Lemma digits_value_N_to_string (n : N) : digits_value (N_to_string n) = Z.of_N n.
Proof.
  destruct (N_to_string_unfold n) as [-> _]. rewrite digits_value_of_uint.
  f_equal. apply DecimalN.Unsigned.of_to.
Qed.

Lemma array_index_numeral (i : nat) :
  Z.of_nat i < maxArrayLength -> array_index (N_to_string (N.of_nat i)) = Some i.
Proof.
  intros Hi. unfold array_index.
  destruct (N_to_string_unfold (N.of_nat i)) as [E Hne].
  apply String.eqb_neq in Hne. rewrite Hne.
  rewrite digits_value_N_to_string, N2Z.id, String.eqb_refl.
  rewrite E, string_of_uint_digits. simpl.
  replace (Z.of_N (N.of_nat i) <? 4294967295) with true
    by (symmetry; apply Z.ltb_lt; unfold maxArrayLength in Hi; lia).
  f_equal. lia.
Qed.

Lemma append_empty (s : string) : s ++ "" = s.
Proof. induction s; simpl; congruence. Qed.

Lemma ToString_index (v : value) (i : nat) :
  isIndex v i -> ToString v = N_to_string (N.of_nat i).
Proof.
  intros (q & -> & Hq). destruct q as [n d]. unfold Qeq in Hq.
  cbn [Qnum Qden inject_Z] in Hq.
  assert (Hn : n = Z.of_nat i * Z.pos d) by lia. subst n.
  cbn [ToString]. unfold Number_toString. cbn [Qnum Qden].
  replace (Z.of_nat i * Z.pos d <? 0) with false by (symmetry; apply Z.ltb_ge; lia).
  rewrite Z.abs_eq by lia. rewrite Z.div_mul, Z.mod_mul by lia.
  change (fraction_digits 20 0 (Z.pos d)) with "".
  change (if String.eqb "" "" then "" else "." ++ "") with "".
  rewrite append_empty. change ("" ++ ?x) with x.
  f_equal. lia.
Qed.

Lemma array_index_of_index (v : value) (i : nat) :
  isIndex v i -> Z.of_nat i < maxArrayLength -> array_index (ToString v) = Some i.
Proof. intros Hv Hi. rewrite (ToString_index v i Hv). apply array_index_numeral, Hi. Qed.

(** ** Reassembly of the route matrix *)

Lemma lookup_map {A B : Type} (f : A -> B) (l : list A) (i : nat) :
  map f l !! i = option_map f (l !! i).
Proof.
  revert i. induction l as [|x l IH]; intros [|i]; simpl; try reflexivity. apply IH.
Qed.

Lemma getField_array_index (l : list value) (k : string) (i : nat) :
  array_index k = Some i -> getField (VArr l) k = default VUndef (l !! i).
Proof. intros H. unfold getField. rewrite H. reflexivity. Qed.

Lemma getProp_defined (v : value) (k : string) :
  nullish v = false -> getProp v k = Ok (getField v k).
Proof. intros H. unfold getProp. rewrite H. reflexivity. Qed.

Lemma matrixStore_in_range (rows : list (list value)) (row : list value)
    (originIdx destIdx v : value) (i j : nat) :
  isIndex originIdx i -> isIndex destIdx j ->
  Z.of_nat i < maxArrayLength -> Z.of_nat j < maxArrayLength ->
  rows !! i = Some row -> (j < length row)%nat ->
  matrixStore rows originIdx destIdx (Ok v) = Ok (<[i := <[j := v]> row]> rows).
Proof.
  intros Hi Hj Bi Bj Hrow Hlen. unfold matrixStore.
  rewrite (array_index_of_index _ _ Hi Bi).
  rewrite (getField_array_index _ _ i (array_index_of_index _ _ Hi Bi)).
  rewrite lookup_map, Hrow. cbn [option_map default from_option id].
  change (getProp (rowObject row) "elements") with (Ok (VArr row)).
  cbn [bind]. unfold arraySet.
  rewrite (array_index_of_index _ _ Hj Bj).
  apply Nat.ltb_lt in Hlen. rewrite Hlen. reflexivity.
Qed.

Lemma storeItem_in_range (rows : list (list value)) (row : list value)
    (item e : value) (i j : nat) :
  nullish item = false -> tagged item i j -> matrixElement item = Ok e ->
  Z.of_nat i < maxArrayLength -> Z.of_nat j < maxArrayLength ->
  rows !! i = Some row -> (j < length row)%nat ->
  storeItem rows item = Ok (<[i := <[j := e]> row]> rows).
Proof.
  intros Hitem [Hi Hj] He Bi Bj Hrow Hlen. unfold storeItem.
  rewrite (getProp_defined _ _ Hitem). cbn [bind]. rewrite He.
  apply matrixStore_in_range; assumption.
Qed.

Section Reassembly.

(** [n] origins and [m] destinations, within the length an array can have. *)
Variables n m : nat.
Hypothesis Bn : Z.of_nat n <= maxArrayLength.
Hypothesis Bm : Z.of_nat m <= maxArrayLength.

Lemma shape_store (rows : list (list value)) (row : list value)
    (i j : nat) (v : value) :
  shape n m rows -> rows !! i = Some row ->
  shape n m (<[i := <[j := v]> row]> rows).
Proof.
  intros [Hn Hm] Hrow. split.
  - rewrite length_insert. exact Hn.
  - apply Forall_insert; [exact Hm|]. rewrite length_insert.
    rewrite Forall_forall in Hm. apply Hm.
    eapply list_elem_of_lookup_2. exact Hrow.
Qed.

Lemma shape_row (rows : list (list value)) (i : nat) :
  shape n m rows -> (i < n)%nat -> exists row, rows !! i = Some row /\ length row = m.
Proof.
  intros [Hn Hm] Hi. destruct (lookup_lt_is_Some_2 rows i) as [row Hrow]; [lia|].
  exists row. split; [exact Hrow|].
  rewrite Forall_forall in Hm. apply Hm.
  eapply list_elem_of_lookup_2. exact Hrow.
Qed.

Lemma cell_store (rows : list (list value)) (row : list value) (i j i' j' : nat)
    (v : value) :
  rows !! i = Some row -> (j < length row)%nat ->
  cell (<[i := <[j := v]> row]> rows) i' j'
  = if decide (i = i' /\ j = j') then Some v else cell rows i' j'.
Proof.
  intros Hrow Hlen. unfold cell.
  assert (Hi : (i < length rows)%nat) by (eapply lookup_lt_Some; exact Hrow).
  destruct (decide (i = i')) as [<-|Hne].
  - rewrite list_lookup_insert_eq by exact Hi. rewrite Hrow.
    destruct (decide (j = j')) as [<-|Hnj].
    + rewrite list_lookup_insert_eq by exact Hlen.
      destruct (decide _) as [_|H]; [reflexivity|exfalso; apply H; auto].
    + rewrite list_lookup_insert_ne by exact Hnj.
      destruct (decide _) as [[_ H]|_]; [contradiction|reflexivity].
  - rewrite list_lookup_insert_ne by exact Hne.
    destruct (decide _) as [[H _]|_]; [contradiction|reflexivity].
Qed.

Lemma isIndex_functional (v : value) (i i' : nat) :
  isIndex v i -> isIndex v i' -> i = i'.
Proof.
  intros (q & -> & H) (q' & E & H'). injection E as <-.
  rewrite H in H'. unfold Qeq in H'. simpl in H'. lia.
Qed.

Lemma tagged_functional (item : value) (i j i' j' : nat) :
  tagged item i j -> tagged item i' j' -> i = i' /\ j = j'.
Proof.
  intros [Hi Hj] [Hi' Hj']. split; eapply isIndex_functional; eassumption.
Qed.

Lemma foldM_storeItem (items : list value) :
  Forall (storable n m) items ->
  ForallOrdPairs distinctTags items ->
  forall rows, shape n m rows ->
  exists rows',
    foldM storeItem rows items = Ok rows'
    /\ shape n m rows'
    /\ (forall item i j e,
          In item items -> tagged item i j -> matrixElement item = Ok e ->
          cell rows' i j = Some e)
    /\ (forall i j,
          (forall item, In item items -> ~ tagged item i j) ->
          cell rows' i j = cell rows i j).
Proof.
  intros Hitems Hdistinct.
  induction Hdistinct as [|x l Hx Hl IH]; intros rows Hshape.
  - exists rows. repeat split; try apply Hshape.
    intros item i j e [].
  - apply Forall_cons in Hitems. destruct Hitems as [Hsx Hsl].
    destruct Hsx as (Hnull & (e & He) & i & j & Htag & Hi & Hj).
    destruct (shape_row rows i Hshape Hi) as (row & Hrow & Hlen).
    assert (Hstore : storeItem rows x = Ok (<[i := <[j := e]> row]> rows)).
    { apply storeItem_in_range; try assumption; lia. }
    destruct (IH Hsl _ (shape_store rows row i j e Hshape Hrow))
      as (rows' & Hfold & Hshape' & Hfilled & Hkept).
    exists rows'. split; [simpl; rewrite Hstore; exact Hfold|].
    split; [exact Hshape'|]. split.
    + intros item i' j' e' [<-|Hin] Htag' He'.
      * destruct (tagged_functional _ _ _ _ _ Htag Htag') as [<- <-].
        rewrite He in He'. injection He' as <-.
        rewrite Hkept.
        -- rewrite cell_store by (try exact Hrow; lia).
           destruct (decide _) as [_|H]; [reflexivity|exfalso; apply H; auto].
        -- intros y Hy. rewrite Forall_forall in Hx.
           apply (Hx y); [apply list_elem_of_In; exact Hy|exact Htag].
      * apply (Hfilled item); assumption.
    + intros i' j' Hnone. rewrite Hkept.
      * rewrite cell_store by (try exact Hrow; lia).
        destruct (decide _) as [[<- <-]|_]; [|reflexivity].
        exfalso. apply (Hnone x); [left; reflexivity|exact Htag].
      * intros y Hy. apply Hnone. right. exact Hy.
Qed.

Lemma shape_replicate : shape n m (replicate n (replicate m VNull)).
Proof.
  split; [apply length_replicate|].
  apply Forall_replicate, length_replicate.
Qed.

Lemma foldM_storeItem_shape (items : list value) :
  Forall (storable n m) items ->
  forall rows, shape n m rows ->
  exists rows', foldM storeItem rows items = Ok rows' /\ shape n m rows'.
Proof.
  intros Hitems. induction Hitems as [|x l Hx Hl IH]; intros rows Hshape.
  - exists rows. split; [reflexivity|exact Hshape].
  - destruct Hx as (Hnull & (e & He) & i & j & Htag & Hi & Hj).
    destruct (shape_row rows i Hshape Hi) as (row & Hrow & Hlen).
    destruct (IH _ (shape_store rows row i j e Hshape Hrow)) as (rows' & Hfold & Hs).
    exists rows'. split; [|exact Hs]. simpl.
    rewrite (storeItem_in_range rows row x e i j) by (try assumption; lia).
    exact Hfold.
Qed.

(** The reassembly as the source intends it: when every entry can be
    stored and every pair of the grid is the tag of exactly one entry, the
    matrix has one row per origin and one element per destination, and
    each element is the one built from the entry tagged with its position. *)
Lemma reassemble_grid (items : list value) :
  Forall (storable n m) items ->
  ForallOrdPairs distinctTags items ->
  (forall i j, (i < n)%nat -> (j < m)%nat -> exists item, In item items /\ tagged item i j) ->
  exists rows,
    reassemble n m (VArr items) = Ok rows
    /\ shape n m rows
    /\ forall i j, (i < n)%nat -> (j < m)%nat ->
       exists item e,
         In item items /\ tagged item i j /\ matrixElement item = Ok e
         /\ cell rows i j = Some e.
Proof.
  intros Hitems Hdistinct Hall.
  destruct (foldM_storeItem items Hitems Hdistinct _ shape_replicate)
    as (rows & Hfold & Hshape & Hfilled & _).
  exists rows. split; [exact Hfold|]. split; [exact Hshape|].
  intros i j Hi Hj. destruct (Hall i j Hi Hj) as (item & Hin & Htag).
  rewrite Forall_forall in Hitems.
  destruct (Hitems item (proj2 (list_elem_of_In _ _) Hin)) as (_ & (e & He) & _).
  exists item, e. split; [exact Hin|]. split; [exact Htag|]. split; [exact He|].
  apply (Hfilled item); assumption.
Qed.

End Reassembly.

(** ** Durations in the route matrix *)

Lemma take_while_all (p : ascii -> bool) (s : string) :
  string_forall p s = true -> take_while p s = s.
Proof.
  induction s as [|c s IH]; simpl; [reflexivity|].
  intros H. apply andb_true_iff in H. destruct H as [-> H]. f_equal. auto.
Qed.

Lemma is_digit_cases (c : ascii) :
  is_digit c = true ->
  In c ["0"; "1"; "2"; "3"; "4"; "5"; "6"; "7"; "8"; "9"]%char.
Proof.
  destruct c as [[] [] [] [] [] [] [] []]; simpl; intros H; try discriminate H; tauto.
Qed.

Ltac digit_cases H :=
  apply is_digit_cases in H; simpl in H;
  destruct H as [<-|[<-|[<-|[<-|[<-|[<-|[<-|[<-|[<-|[<-|[]]]]]]]]]]].













Lemma isIndex_literal (i : nat) : isIndex (VNum (inject_Z (Z.of_nat i))) i.
Proof. eexists. split; [reflexivity|]. reflexivity. Defined.




(** C5 at the failing input. One origin, one destination, and an answer
    whose single entry is tagged [(0, 0)] and has a distance but no
    duration: the element cannot be built, because the duration value is
    computed whenever the distance is present, so no matrix is produced and
    the call ends as an error. *)
Theorem reassembly_fails_on_distance_without_duration :
  tagged distanceOnlyEntry 0 0
  /\ matrixElement distanceOnlyEntry = Throw (cannot_read "undefined" "replace")
  /\ reassemble 1 1 (VArr [ distanceOnlyEntry ])
     = Throw (cannot_read "undefined" "replace")
  /\ fst (callTool distanceOnlyEnv
            {| name := "maps_distance_matrix";
               arguments := VObj [ ("origins", VArr [ VStr "Zurich" ]);
                                   ("destinations", VArr [ VStr "Bern" ]) ] |})
     = Ok (result true "Error: Cannot read properties of undefined (reading 'replace')").
Proof.
  split; [split; apply (isIndex_literal 0)|].
  split; [reflexivity|]. split; reflexivity.
Qed.

(** ** Defaults of the reshaped place *)

Lemma mem_true (k : string) (l : list string) : mem k l = true <-> In k l.
Proof.
  unfold mem. rewrite existsb_exists. split.
  - intros (x & Hx & E). apply String.eqb_eq in E. subst. exact Hx.
  - intros H. exists k. split; [exact H|apply String.eqb_refl].
Qed.

Lemma distinct_NoDup (l : list string) : distinct l = true -> NoDup l.
Proof.
  induction l as [|k l IH]; simpl; intros H; constructor.
  - apply andb_true_iff in H. destruct H as [H _].
    intros Hin. apply list_elem_of_In, mem_true in Hin. rewrite Hin in H. discriminate.
  - apply IH. apply andb_true_iff in H. apply H.
Qed.

Lemma assoc_not_in {A : Type} (k : string) (fs : list (string * A)) :
  ~ In k (map fst fs) -> assoc k fs = None.
Proof.
  induction fs as [|[k' v] fs IH]; simpl; [reflexivity|].
  intros H. destruct (String.eqb_spec k k') as [->|_].
  - exfalso. apply H. left. reflexivity.
  - apply IH. intros Hin. apply H. right. exact Hin.
Qed.

Lemma assoc_pruned (fs : list (string * value)) (k : string) :
  NoDup (map fst fs) ->
  assoc k (filter_map (fun kv => option_map (pair (fst kv)) (JSON_prune (snd kv))) fs)
  = match assoc k fs with
    | Some v => JSON_prune v
    | None => None
    end.
Proof.
  induction fs as [|[k' v] fs IH]; intros Hnd; [reflexivity|].
  cbn [map fst] in Hnd. apply NoDup_cons in Hnd. destruct Hnd as [Hk Hnd].
  rewrite list_elem_of_In in Hk.
  cbn [filter_map fst snd assoc].
  destruct (JSON_prune v) as [p|] eqn:P; cbn [option_map assoc];
    destruct (String.eqb_spec k k') as [->|Hne]; rewrite ?P; try reflexivity;
    try (apply IH; exact Hnd).
  rewrite (IH Hnd), (assoc_not_in _ _ Hk). reflexivity.
Qed.

(** With distinct keys, the members of the written document are the pruned
    members of the object. *)
Lemma member_of_pruned (fs : list (string * value)) (k : string) :
  NoDup (map fst fs) ->
  documentMember (VObj fs) k
  = match assoc k fs with
    | Some v => JSON_prune v
    | None => None
    end.
Proof. intros Hnd. unfold documentMember. cbn [JSON_prune]. apply assoc_pruned, Hnd. Qed.

Lemma absent_field (fields : list (string * value)) (k : string) :
  assoc k fields = None ->
  mem k ("__proto__" :: objectPrototype) = false ->
  getField (VObj fields) k = VUndef.
Proof.
  intros Habs Hproto. unfold getField. rewrite Habs.
  change (mem k ("__proto__" :: objectPrototype))
    with (String.eqb k "__proto__" || mem k objectPrototype) in Hproto.
  apply orb_false_iff in Hproto. destruct Hproto as [-> Hp].
  unfold inherited. rewrite Hp. reflexivity.
Qed.

Lemma placeDetailsFields_distinct (placeData dn vb oh rv ph : value) :
  NoDup (map fst (placeDetailsFields placeData dn vb oh rv ph)).
Proof. apply distinct_NoDup. reflexivity. Qed.

Lemma formatPlaceDetails_fields (fields : list (string * value)) (formattedData : value) :
  formatPlaceDetails (VObj fields) = Ok formattedData ->
  exists vb oh rv ph,
    reshapeViewport (getField (VObj fields) "viewport") = Ok vb
    /\ reshapeOpeningHours (getField (VObj fields) "regularOpeningHours") = Ok oh
    /\ optCallMap "placeData.reviews" (getField (VObj fields) "reviews") reshapeReview = Ok rv
    /\ optCallMap "placeData.photos" (getField (VObj fields) "photos") reshapePhoto = Ok ph
    /\ formattedData
       = VObj (placeDetailsFields (VObj fields) (getField (VObj fields) "displayName")
                 vb oh rv ph).
Proof.
  unfold formatPlaceDetails.
  change (getProp (VObj fields) "displayName")
    with (Ok (getField (VObj fields) "displayName")).
  cbn [bind].
  destruct (reshapeViewport _) as [vb|]; [|discriminate]. cbn [bind].
  destruct (reshapeOpeningHours _) as [oh|]; [|discriminate]. cbn [bind].
  destruct (optCallMap "placeData.reviews" _ _) as [rv|]; [|discriminate]. cbn [bind].
  destruct (optCallMap "placeData.photos" _ _) as [ph|]; [|discriminate]. cbn [bind].
  intros H. injection H as <-. exists vb, oh, rv, ph. repeat split; reflexivity.
Qed.

Lemma place_details_defaults (fields : list (string * value)) (formattedData : value) :
  formatPlaceDetails (VObj fields) = Ok formattedData ->
  forall up out dflt,
    In (up, out, dflt) placeDetailsDefaults ->
    assoc up fields = None ->
    documentMember formattedData out = Some dflt.
Proof.
  intros Hfd up out dflt Hin Habs.
  apply formatPlaceDetails_fields in Hfd.
  destruct Hfd as (vb & oh & rv & ph & Evb & Eoh & Erv & Eph & ->).
  rewrite member_of_pruned by apply placeDetailsFields_distinct.
  unfold placeDetailsDefaults in Hin.
  repeat (destruct Hin as [Hin|Hin];
          [injection Hin as <- <- <-;
           pose proof (absent_field fields _ Habs eq_refl) as Hundef;
           unfold placeDetailsFields; cbn [assoc String.eqb Ascii.eqb Bool.eqb];
           try (rewrite Hundef in Eoh; injection Eoh as <-);
           try (rewrite Hundef in Erv; injection Erv as <-);
           try (rewrite Hundef in Eph; injection Eph as <-);
           rewrite ?Hundef; reflexivity|]).
  destruct Hin.
Qed.

Lemma place_details_geometry (fields : list (string * value)) (formattedData : value) :
  formatPlaceDetails (VObj fields) = Ok formattedData ->
  exists g,
    documentMember formattedData "geometry" = Some (VObj g)
    /\ (assoc "location" fields = None -> assoc "location" g = Some VNull)
    /\ (assoc "viewport" fields = None -> assoc "viewport" g = Some VNull).
Proof.
  intros Hfd. apply formatPlaceDetails_fields in Hfd.
  destruct Hfd as (vb & oh & rv & ph & Evb & Eoh & Erv & Eph & ->).
  rewrite member_of_pruned by apply placeDetailsFields_distinct.
  unfold placeDetailsFields; cbn [assoc String.eqb Ascii.eqb Bool.eqb].
  cbn [JSON_prune filter_map fst snd].
  destruct (truthy (getField (VObj fields) "location")) eqn:Hloc;
    cbn [JSON_prune option_map];
    destruct (JSON_prune vb) as [pvb|] eqn:Hvb; cbn [option_map];
    (eexists; split; [reflexivity|]; split; intros Habs;
     pose proof (absent_field fields _ Habs eq_refl) as Hundef;
     try (rewrite Hundef in Hloc; discriminate Hloc);
     try (rewrite Hundef in Evb; injection Evb as <-);
     try discriminate Hvb;
     try (injection Hvb as <-); reflexivity).
Qed.

Lemma place_details_place_id (fields : list (string * value)) (formattedData : value) :
  formatPlaceDetails (VObj fields) = Ok formattedData ->
  assoc "id" fields = None ->
  documentMember formattedData "place_id" = None.
Proof.
  intros Hfd Habs. apply formatPlaceDetails_fields in Hfd.
  destruct Hfd as (vb & oh & rv & ph & Evb & Eoh & Erv & Eph & ->).
  rewrite member_of_pruned by apply placeDetailsFields_distinct.
  unfold placeDetailsFields; cbn [assoc String.eqb Ascii.eqb Bool.eqb].
  rewrite (absent_field fields _ Habs eq_refl). reflexivity.
Qed.

Lemma place_search_pass_through (fields : list (string * value)) (out : value) :
  reshapePlace (VObj fields) = Ok out ->
  forall up key,
    In (up, key) placeSearchPassThrough ->
    assoc up fields = None ->
    documentMember out key = None.
Proof.
  unfold reshapePlace.
  change (getProp (VObj fields) "displayName")
    with (Ok (getField (VObj fields) "displayName")).
  change (getProp (VObj fields) "location")
    with (Ok (getField (VObj fields) "location")).
  cbn [bind]. intros H up key Hin Habs. injection H as <-.
  rewrite member_of_pruned by (apply distinct_NoDup; reflexivity).
  unfold placeSearchPassThrough in Hin.
  repeat (destruct Hin as [Hin|Hin];
          [injection Hin as <- <-;
           cbn [assoc String.eqb Ascii.eqb Bool.eqb];
           rewrite Habs; reflexivity|]).
  destruct Hin.
Qed.

(** C4, as stated, fails: in [maps_search_places], a place without the
    optional [rating] is written without a [rating] key, in a successful
    answer. *)
Lemma search_places_omits_absent_rating :
  getField unratedPlace "rating" = VUndef
  /\ exists out,
       reshapePlace unratedPlace = Ok out
       /\ documentMember out "rating" = None
       /\ documentMember out "name" = Some (VStr "Cafe")
       /\ fst (handlePlaceSearch unratedEnv (VStr "cafe") VUndef VUndef)
          = Ok (result false (JSON_stringify 2 (VObj [ ("places", VArr [ out ]) ]))).
Proof.
  split; [reflexivity|]. eexists. split; [reflexivity|].
  split; [reflexivity|]. split; reflexivity.
Qed.

(** C4, amended. In [maps_place_details], whenever the upstream place is
    reshaped, every optional field read with a fallback that is absent
    upstream is written with its key and its fallback: the empty string,
    [0], [false] or the empty list for the scalar and list fields, [null]
    for [plus_code], [opening_hours], [current_opening_hours] and the two
    members of [geometry], the empty object for [payment_options] and
    [accessibility_options]. A field that is passed through without a
    fallback is left out of the JSON when it is absent upstream:
    [place_id] in [maps_place_details], and [name], [formatted_address],
    [place_id], [rating] and [types] in [maps_search_places]. *)
Theorem absent_fields_get_fallbacks_or_are_omitted :
  (forall fields formattedData,
      formatPlaceDetails (VObj fields) = Ok formattedData ->
      (forall up out dflt,
          In (up, out, dflt) placeDetailsDefaults ->
          assoc up fields = None ->
          documentMember formattedData out = Some dflt)
      /\ (exists g,
            documentMember formattedData "geometry" = Some (VObj g)
            /\ (assoc "location" fields = None -> assoc "location" g = Some VNull)
            /\ (assoc "viewport" fields = None -> assoc "viewport" g = Some VNull))
      /\ (assoc "id" fields = None -> documentMember formattedData "place_id" = None))
  /\ (forall fields out,
        reshapePlace (VObj fields) = Ok out ->
        forall up key,
          In (up, key) placeSearchPassThrough ->
          assoc up fields = None ->
          documentMember out key = None).
Proof.
  split.
  - intros fields formattedData Hfd. split; [|split].
    + apply place_details_defaults, Hfd.
    + apply place_details_geometry, Hfd.
    + apply place_details_place_id, Hfd.
  - apply place_search_pass_through.
Qed.

Lemma absent_fields_get_fallbacks_or_are_omitted_witness :
  (exists formattedData,
      formatPlaceDetails (VObj [ ("id", VStr "P1"); ("rating", VNum 4) ]) = Ok formattedData
      /\ documentMember formattedData "website" = Some (VStr "")
      /\ documentMember formattedData "user_ratings_total" = Some (VNum 0)
      /\ documentMember formattedData "dine_in" = Some (VBool false)
      /\ documentMember formattedData "photos" = Some (VArr [])
      /\ documentMember formattedData "opening_hours" = Some VNull)
  /\ exists out,
       reshapePlace unratedPlace = Ok out /\ documentMember out "rating" = None.
Proof.
  destruct absent_fields_get_fallbacks_or_are_omitted as [Hdetails Hsearch].
  split.
  - eexists. split; [reflexivity|].
    destruct (Hdetails [ ("id", VStr "P1"); ("rating", VNum 4) ] _ eq_refl) as (H & _ & _).
    split; [apply (H "websiteUri"); [simpl; tauto|reflexivity]|].
    split; [apply (H "userRatingCount"); [simpl; tauto|reflexivity]|].
    split; [apply (H "dineIn"); [simpl; tauto|reflexivity]|].
    split; [apply (H "photos"); [simpl; tauto|reflexivity]|].
    apply (H "regularOpeningHours"); [simpl; tauto|reflexivity].
  - eexists. split; [reflexivity|].
    apply (Hsearch _ _ (eq_refl : reshapePlace unratedPlace = Ok _) "rating");
      [simpl; tauto|reflexivity].
Defined.

(** ** Regular expressions: the matcher decides the language *)

Lemma append_assoc (a b c : string) : (a ++ b) ++ c = a ++ (b ++ c).
Proof. induction a; simpl; congruence. Qed.

Lemma append_eq_empty (a b : string) : a ++ b = "" -> a = "" /\ b = "".
Proof. destruct a; simpl; [auto|discriminate]. Qed.

Lemma append_eq_cons (a b s : string) (c : ascii) :
  a ++ b = String c s ->
  (a = "" /\ b = String c s) \/ exists a', a = String c a' /\ s = a' ++ b.
Proof.
  destruct a as [|c' a']; simpl; intros H; [left; auto|].
  injection H as -> <-. right. eauto.
Qed.

Lemma matches_void_inv (s : string) : Matches Void s -> False.
Proof. intros H. inversion H. Qed.

Lemma matches_eps_inv (s : string) : Matches Eps s -> s = "".
Proof. intros H. inversion H. reflexivity. Qed.

Lemma matches_cls_inv (p : ascii -> bool) (s : string) :
  Matches (Cls p) s -> exists c, s = String c "" /\ p c = true.
Proof. intros H. inversion H; subst. eauto. Qed.

Lemma matches_seq_inv (r1 r2 : regex) (s : string) :
  Matches (Seq r1 r2) s ->
  exists s1 s2, s = s1 ++ s2 /\ Matches r1 s1 /\ Matches r2 s2.
Proof. intros H. inversion H; subst. eauto. Qed.

Lemma matches_alt_inv (r1 r2 : regex) (s : string) :
  Matches (Alt r1 r2) s -> Matches r1 s \/ Matches r2 s.
Proof. intros H. inversion H; subst; auto. Qed.

Lemma matches_star_inv (r : regex) (s : string) :
  Matches (Star r) s ->
  s = ""
  \/ exists c s1 s2,
       s = String c (s1 ++ s2) /\ Matches r (String c s1) /\ Matches (Star r) s2.
Proof.
  intros H. remember (Star r) as r' eqn:E.
  induction H as [| | | | | r0 | r0 s1 s2 H1 _ H2 IH2]; try discriminate.
  - left. reflexivity.
  - injection E as ->. destruct s1 as [|c s1].
    + simpl. apply IH2. reflexivity.
    + right. exists c, s1, s2. auto.
Qed.

Lemma nullable_spec (r : regex) : nullable r = true <-> Matches r "".
Proof.
  induction r as [| |p|r1 IH1 r2 IH2|r1 IH1 r2 IH2|r IH]; simpl.
  - split; [discriminate|intros H; destruct (matches_void_inv _ H)].
  - split; [intros _; constructor|reflexivity].
  - split; [discriminate|].
    intros H. apply matches_cls_inv in H. destruct H as (c & E & _). discriminate.
  - rewrite andb_true_iff, IH1, IH2. split.
    + intros [H1 H2]. exact (MSeq _ _ "" "" H1 H2).
    + intros H. apply matches_seq_inv in H. destruct H as (s1 & s2 & E & H1 & H2).
      symmetry in E. apply append_eq_empty in E. destruct E as [-> ->]. auto.
  - rewrite orb_true_iff, IH1, IH2. split.
    + intros [H|H]; [apply MAltL|apply MAltR]; exact H.
    + apply matches_alt_inv.
  - split; [intros _; constructor|reflexivity].
Qed.

Lemma deriv_spec (r : regex) (c : ascii) (s : string) :
  Matches (deriv c r) s <-> Matches r (String c s).
Proof.
  revert s. induction r as [| |p|r1 IH1 r2 IH2|r1 IH1 r2 IH2|r IH]; intros s; simpl.
  - split; intros H; destruct (matches_void_inv _ H).
  - split; intros H; [destruct (matches_void_inv _ H)|].
    apply matches_eps_inv in H. discriminate.
  - destruct (p c) eqn:P; split; intros H.
    + apply matches_eps_inv in H. subst. constructor. exact P.
    + apply matches_cls_inv in H. destruct H as (c' & E & _).
      injection E as -> ->. constructor.
    + destruct (matches_void_inv _ H).
    + apply matches_cls_inv in H. destruct H as (c' & E & P').
      injection E as -> ->. congruence.
  - assert (Hseq : Matches (Seq (deriv c r1) r2) s
                   <-> exists s1 s2, s = s1 ++ s2 /\ Matches r1 (String c s1)
                                     /\ Matches r2 s2).
    { split.
      - intros H. apply matches_seq_inv in H. destruct H as (s1 & s2 & -> & H1 & H2).
        exists s1, s2. rewrite <- IH1. auto.
      - intros (s1 & s2 & -> & H1 & H2). constructor; [apply IH1; exact H1|exact H2]. }
    assert (Hgoal : Matches (Seq r1 r2) (String c s)
                    <-> (exists s1 s2, s = s1 ++ s2 /\ Matches r1 (String c s1)
                                       /\ Matches r2 s2)
                        \/ (Matches r1 "" /\ Matches r2 (String c s))).
    { split.
      - intros H. apply matches_seq_inv in H. destruct H as (s1 & s2 & E & H1 & H2).
        symmetry in E. apply append_eq_cons in E.
        destruct E as [[-> ->]|(a' & -> & ->)]; [right; auto|left; eauto].
      - intros [(s1 & s2 & -> & H1 & H2)|[H1 H2]].
        + exact (MSeq _ _ (String c s1) s2 H1 H2).
        + exact (MSeq _ _ "" (String c s) H1 H2). }
    rewrite Hgoal. destruct (nullable r1) eqn:N.
    + split.
      * intros H. apply matches_alt_inv in H. destruct H as [H|H].
        -- left. apply Hseq. exact H.
        -- right. split; [apply nullable_spec; exact N|apply IH2; exact H].
      * intros [H|[_ H]]; [apply MAltL, Hseq; exact H|apply MAltR, IH2; exact H].
    + rewrite Hseq. split; [auto|]. intros [H|[H _]]; [exact H|].
      apply nullable_spec in H. congruence.
  - split; intros H.
    + apply matches_alt_inv in H.
      destruct H as [H|H]; [apply MAltL, IH1|apply MAltR, IH2]; exact H.
    + apply matches_alt_inv in H.
      destruct H as [H|H]; [apply MAltL, IH1|apply MAltR, IH2]; exact H.
  - split; intros H.
    + apply matches_seq_inv in H. destruct H as (s1 & s2 & -> & H1 & H2).
      apply IH in H1. exact (MStarCons _ (String c s1) s2 H1 H2).
    + apply matches_star_inv in H. destruct H as [E|(c' & s1 & s2 & E & H1 & H2)].
      * discriminate.
      * injection E as <- ->. constructor; [apply IH; exact H1|exact H2].
Qed.

Lemma regex_test_spec (r : regex) (s : string) :
  regex_test r s = true <-> Matches r s.
Proof.
  revert r. induction s as [|c s IH]; intros r; simpl.
  - apply nullable_spec.
  - rewrite IH. apply deriv_spec.
Qed.

(** ** Strings: classes of characters, reversal, trimming, splitting *)

Lemma string_forall_app (p : ascii -> bool) (a b : string) :
  string_forall p (a ++ b) = string_forall p a && string_forall p b.
Proof. induction a as [|c a IH]; simpl; [reflexivity|]. rewrite IH. apply andb_assoc. Qed.

Lemma string_forall_impl (p q : ascii -> bool) (s : string) :
  (forall c, p c = true -> q c = true) ->
  string_forall p s = true -> string_forall q s = true.
Proof.
  intros Hpq. induction s as [|c s IH]; simpl; [reflexivity|].
  intros H. apply andb_true_iff in H. destruct H as [Hc Hs].
  rewrite (Hpq c Hc). apply IH, Hs.
Qed.

Lemma string_rev_onto_twice (s a b : string) :
  string_rev_onto (string_rev_onto s a) b = string_rev_onto a (s ++ b).
Proof.
  revert a. induction s as [|c s IH]; intros a; simpl; [reflexivity|].
  rewrite IH. reflexivity.
Qed.

Lemma string_rev_involutive (s : string) : string_rev (string_rev s) = s.
Proof.
  unfold string_rev. rewrite string_rev_onto_twice. simpl. apply append_empty.
Qed.

Lemma string_forall_rev_onto (p : ascii -> bool) (s acc : string) :
  string_forall p (string_rev_onto s acc) = string_forall p s && string_forall p acc.
Proof.
  revert acc. induction s as [|c s IH]; intros acc; simpl; [reflexivity|].
  rewrite IH. simpl. rewrite !andb_assoc. f_equal. apply andb_comm.
Qed.

Lemma drop_while_app_all (p : ascii -> bool) (a b : string) :
  string_forall p a = true -> drop_while p (a ++ b) = drop_while p b.
Proof.
  induction a as [|c a IH]; simpl; [reflexivity|].
  intros H. apply andb_true_iff in H. destruct H as [-> H]. apply IH, H.
Qed.

Lemma drop_while_none (p : ascii -> bool) (s : string) :
  string_forall (fun c => negb (p c)) s = true -> drop_while p s = s.
Proof.
  destruct s as [|c s]; simpl; [reflexivity|].
  intros H. apply andb_true_iff in H. destruct H as [H _].
  apply negb_true_iff in H. rewrite H. reflexivity.
Qed.

Lemma take_while_app (p : ascii -> bool) (a b : string) :
  string_forall p a = true -> take_while p (a ++ b) = a ++ take_while p b.
Proof.
  induction a as [|c a IH]; simpl; [reflexivity|].
  intros H. apply andb_true_iff in H. destruct H as [-> H]. f_equal. apply IH, H.
Qed.

(** White space before a text that has none is all that [trim] removes. *)
Lemma trim_leading (ws t : string) :
  string_forall is_space ws = true ->
  string_forall notSpace t = true ->
  trim (ws ++ t) = t.
Proof.
  intros Hws Ht. unfold trim.
  rewrite (drop_while_app_all _ _ _ Hws), (drop_while_none is_space t Ht).
  rewrite drop_while_none; [apply string_rev_involutive|].
  unfold string_rev. rewrite string_forall_rev_onto.
  fold (notSpace). rewrite Ht. reflexivity.
Qed.

Lemma split_on_none (s : string) :
  string_forall notComma s = true -> split_on "," s = [s].
Proof.
  induction s as [|c s IH]; simpl; [reflexivity|].
  intros H. apply andb_true_iff in H. destruct H as [Hc Hs].
  unfold notComma in Hc. apply negb_true_iff in Hc. rewrite Hc, (IH Hs). reflexivity.
Qed.

Lemma split_on_once (a b : string) :
  string_forall notComma a = true -> string_forall notComma b = true ->
  split_on "," (a ++ "," ++ b) = [a; b].
Proof.
  intros Ha Hb. induction a as [|c a IH].
  - simpl. rewrite (split_on_none b Hb). reflexivity.
  - simpl in Ha. apply andb_true_iff in Ha. destruct Ha as [Hc Ha].
    unfold notComma in Hc. apply negb_true_iff in Hc.
    change ((String c a ++ "," ++ b)) with (String c (a ++ "," ++ b)).
    cbn [split_on]. rewrite Hc, (IH Ha). reflexivity.
Qed.

(** ** Decimal numerals *)

Lemma is_digit_range (c : ascii) : is_digit c = in_range "0" "9" c.
Proof. destruct c as [[] [] [] [] [] [] [] []]; reflexivity. Qed.

Lemma digit_value_bounds (c : ascii) : is_digit c = true -> 0 <= digit_value c <= 9.
Proof.
  rewrite is_digit_range. unfold in_range, digit_value. simpl.
  intros H. apply andb_true_iff in H. destruct H as [H1 H2].
  apply N.leb_le in H1, H2. lia.
Qed.

Lemma in_range_digit (lo hi c : ascii) :
  is_digit lo = true -> is_digit hi = true -> in_range lo hi c = true ->
  is_digit c = true /\ digit_value lo <= digit_value c <= digit_value hi.
Proof.
  rewrite !is_digit_range. unfold in_range, digit_value. simpl.
  intros Hlo Hhi H.
  apply andb_true_iff in Hlo, Hhi, H.
  destruct Hlo as [L1 L2], Hhi as [U1 U2], H as [H1 H2].
  apply N.leb_le in L1, L2, U1, U2, H1, H2.
  split; [|lia].
  apply andb_true_iff. split; apply N.leb_le; lia.
Qed.

Lemma digits_value_from_bounds (s : string) (acc : Z) :
  string_forall is_digit s = true -> 0 <= acc ->
  acc * 10 ^ Z.of_nat (String.length s) <= digits_value_from acc s
  < (acc + 1) * 10 ^ Z.of_nat (String.length s).
Proof.
  revert acc. induction s as [|c s IH]; intros acc Hs Hacc.
  - simpl. lia.
  - simpl in Hs. apply andb_true_iff in Hs. destruct Hs as [Hc Hs].
    pose proof (digit_value_bounds c Hc) as Hd.
    cbn [digits_value_from String.length].
    specialize (IH (10 * acc + digit_value c) Hs ltac:(lia)).
    rewrite Nat2Z.inj_succ, Z.pow_succ_r by lia.
    assert (Hpow : 0 < 10 ^ Z.of_nat (String.length s)) by (apply Z.pow_pos_nonneg; lia).
    nia.
Qed.

Lemma digits_value_bounds (s : string) :
  string_forall is_digit s = true ->
  0 <= digits_value s < 10 ^ Z.of_nat (String.length s).
Proof.
  intros H. pose proof (digits_value_from_bounds s 0 H ltac:(lia)) as B.
  unfold digits_value. lia.
Qed.

Lemma digits_value_zeros (s : string) :
  string_forall (Ascii.eqb "0") s = true -> digits_value s = 0.
Proof.
  unfold digits_value. induction s as [|c s IH]; [reflexivity|].
  cbn [string_forall digits_value_from].
  intros H. apply andb_true_iff in H. destruct H as [Hc Hs].
  apply Ascii.eqb_eq in Hc. subst c. exact (IH Hs).
Qed.

Lemma ten_pow_pos (n : nat) : 0 < 10 ^ Z.of_nat n.
Proof. apply Z.pow_pos_nonneg; lia. Qed.

Lemma unsigned_decimal_text (ip fd : string) :
  string_forall is_digit ip = true -> ip <> "" -> string_forall is_digit fd = true ->
  exists q,
    unsigned_decimal (decimalText ip fd) = Some q
    /\ (inject_Z (digits_value ip) <= q)%Q
    /\ (q < inject_Z (digits_value ip + 1))%Q
    /\ (digits_value fd = 0 -> (q == inject_Z (digits_value ip))%Q).
Proof.
  intros Hip Hne Hfd. unfold unsigned_decimal, decimalText.
  apply String.eqb_neq in Hne.
  destruct fd as [|c fd].
  - rewrite append_empty, (take_while_all _ _ Hip), (drop_while_all _ _ Hip), Hne.
    eexists. split; [reflexivity|]. split; [apply Qle_refl|].
    split; [|intros _; reflexivity].
    rewrite <- Zlt_Qlt. lia.
  - rewrite (take_while_app _ _ _ Hip), (drop_while_app_all _ _ _ Hip).
    change (take_while is_digit ("." ++ String c fd)) with "".
    change (drop_while is_digit ("." ++ String c fd)) with (String "." (String c fd)).
    rewrite append_empty, Hfd, Hne. cbn [andb negb].
    eexists. split; [reflexivity|].
    pose proof (digits_value_bounds _ Hfd) as B.
    pose proof (ten_pow_pos (String.length (String c fd))) as P.
    unfold Qle, Qlt, Qeq, Qplus, inject_Z. cbn [Qnum Qden].
    rewrite ?Pos.mul_1_l, !Z2Pos.id by exact P.
    set (T := 10 ^ Z.of_nat (String.length (String c fd))) in *.
    set (F := digits_value (String c fd)) in *.
    split; [nia|]. split; [nia|]. intros Hz. rewrite Hz. nia.
Qed.

Lemma digit_notSpace (c : ascii) : is_digit c = true -> notSpace c = true.
Proof. intros Hc. digit_cases Hc; reflexivity. Qed.

Lemma digit_notComma (c : ascii) : is_digit c = true -> notComma c = true.
Proof. intros Hc. digit_cases Hc; reflexivity. Qed.

Lemma space_notComma (c : ascii) : is_space c = true -> notComma c = true.
Proof.
  unfold notComma. destruct (Ascii.eqb_spec c ","); [subst; discriminate|reflexivity].
Qed.

Lemma decimalText_class (p : ascii -> bool) (ip fd : string) :
  (forall c, is_digit c = true -> p c = true) -> p "."%char = true ->
  string_forall is_digit ip = true -> string_forall is_digit fd = true ->
  string_forall p (decimalText ip fd) = true.
Proof.
  intros Hd Hdot Hip Hfd. unfold decimalText. rewrite string_forall_app.
  rewrite (string_forall_impl _ _ _ Hd Hip).
  destruct fd as [|c fd]; [reflexivity|].
  change ("." ++ String c fd) with (String "." (String c fd)).
  cbn [string_forall andb]. rewrite Hdot.
  exact (string_forall_impl _ _ _ Hd Hfd).
Qed.

(** The number [Number] reads in a signed decimal preceded by white
    space, when the decimal is at most [bound]. *)
Lemma Number_of_signed_decimal (ws sg ip fd : string) (bound : Z) :
  string_forall is_space ws = true ->
  sg = "" \/ sg = "-" \/ sg = "+" ->
  string_forall is_digit ip = true -> ip <> "" -> string_forall is_digit fd = true ->
  digits_value ip <= bound - 1 \/ (digits_value ip = bound /\ digits_value fd = 0) ->
  exists q,
    Number_ofString (ws ++ sg ++ decimalText ip fd) = Some q
    /\ (inject_Z (- bound) <= q)%Q /\ (q <= inject_Z bound)%Q.
Proof.
  intros Hws Hsg Hip Hne Hfd Hbound.
  destruct (unsigned_decimal_text ip fd Hip Hne Hfd) as (q & Hq & Hlo & Hhi & Hzero).
  pose proof (digits_value_bounds _ Hip) as Bip.
  assert (Hq0 : (0 <= q)%Q).
  { eapply Qle_trans; [|exact Hlo]. rewrite <- (Zle_Qle 0). lia. }
  assert (HqB : (q <= inject_Z bound)%Q).
  { destruct Hbound as [Hb|[Hb Hz]].
    - apply Qlt_le_weak. eapply Qlt_le_trans; [exact Hhi|]. rewrite <- Zle_Qle. lia.
    - rewrite (Hzero Hz), Hb. apply Qle_refl. }
  assert (Hbound0 : 0 <= bound) by lia.
  assert (Htext : string_forall notSpace (decimalText ip fd) = true)
    by (apply decimalText_class; auto using digit_notSpace).
  unfold Number_ofString.
  rewrite trim_leading;
    [|exact Hws
     |rewrite string_forall_app, Htext;
      destruct Hsg as [->|[->| ->]]; reflexivity].
  destruct Hsg as [->|[->| ->]].
  - change ("" ++ decimalText ip fd) with (decimalText ip fd).
    assert (Hshape : exists c r, decimalText ip fd = String c r /\ is_digit c = true).
    { destruct ip as [|c r]; [contradiction|].
      simpl in Hip. apply andb_true_iff in Hip. destruct Hip as [Hc _].
      exists c. eexists. split; [reflexivity|exact Hc]. }
    destruct Hshape as (c & r & E & Hc).
    exists q. split; [|split; [|exact HqB]].
    { rewrite E in Hq |- *. digit_cases Hc; exact Hq. }
    eapply Qle_trans; [|exact Hq0]. rewrite <- (Zle_Qle _ 0). lia.
  - change ("-" ++ decimalText ip fd) with (String "-" (decimalText ip fd)).
    cbv iota beta. rewrite Hq. exists (- q)%Q. split; [reflexivity|]. split.
    + rewrite inject_Z_opp. apply Qopp_le_compat. exact HqB.
    + eapply Qle_trans; [|rewrite <- (Zle_Qle 0); exact Hbound0].
      change 0%Q with (- 0)%Q. apply Qopp_le_compat. exact Hq0.
  - change ("+" ++ decimalText ip fd) with (String "+" (decimalText ip fd)).
    cbv iota beta. rewrite Hq. exists q. split; [reflexivity|]. split; [|exact HqB].
    eapply Qle_trans; [|exact Hq0]. rewrite <- (Zle_Qle _ 0). lia.
Qed.

(** ** The strings [coordRegex] accepts *)

Lemma matches_opt_inv (r : regex) (t : string) :
  Matches (Opt r) t -> t = "" \/ Matches r t.
Proof.
  intros H. apply matches_alt_inv in H. destruct H as [H|H]; [right; exact H|].
  left. apply matches_eps_inv, H.
Qed.

Lemma matches_lit_inv (s t : string) : Matches (Lit s) t -> t = s.
Proof.
  revert t. induction s as [|c s IH]; intros t H; simpl in H.
  - apply matches_eps_inv, H.
  - apply matches_seq_inv in H. destruct H as (s1 & s2 & -> & H1 & H2).
    apply matches_cls_inv in H1. destruct H1 as (c' & -> & E).
    apply Ascii.eqb_eq in E. subst c'. rewrite (IH _ H2). reflexivity.
Qed.

Lemma matches_star_cls (p : ascii -> bool) (t : string) :
  Matches (Star (Cls p)) t -> string_forall p t = true.
Proof.
  induction t as [|c t IH]; intros H; [reflexivity|].
  apply matches_star_inv in H. destruct H as [E|(c' & s1 & s2 & E & H1 & H2)];
    [discriminate|].
  apply matches_cls_inv in H1. destruct H1 as (c'' & E1 & P).
  injection E1 as <- ->. injection E as <- ->.
  cbn [string_forall]. rewrite P. apply IH, H2.
Qed.

Lemma matches_plus_cls (p : ascii -> bool) (t : string) :
  Matches (Plus (Cls p)) t -> t <> "" /\ string_forall p t = true.
Proof.
  intros H. apply matches_seq_inv in H. destruct H as (s1 & s2 & -> & H1 & H2).
  apply matches_cls_inv in H1. destruct H1 as (c & -> & P).
  apply matches_star_cls in H2. split; [discriminate|].
  cbn [append string_forall]. rewrite P. exact H2.
Qed.

Lemma decimalText_fraction (ip fd : string) :
  fd <> "" -> ip ++ "." ++ fd = decimalText ip fd.
Proof. intros H. unfold decimalText. destruct fd; [contradiction|reflexivity]. Qed.

Lemma opt_fraction_shape (t : string) :
  Matches (Opt fraction) t ->
  exists fd, string_forall is_digit fd = true /\ forall ip, ip ++ t = decimalText ip fd.
Proof.
  intros H. apply matches_opt_inv in H. destruct H as [->|H].
  - exists "". split; [reflexivity|]. intros ip. reflexivity.
  - apply matches_seq_inv in H. destruct H as (s1 & s2 & -> & H1 & H2).
    apply matches_cls_inv in H1. destruct H1 as (c & -> & E).
    apply Ascii.eqb_eq in E. subst c.
    apply matches_plus_cls in H2. destruct H2 as [Hne Hd].
    exists s2. split; [exact Hd|]. intros ip. apply decimalText_fraction, Hne.
Qed.

Lemma opt_zeros_shape (t : string) :
  Matches (Opt zeros) t ->
  exists fd,
    string_forall is_digit fd = true /\ digits_value fd = 0
    /\ forall ip, ip ++ t = decimalText ip fd.
Proof.
  intros H. apply matches_opt_inv in H. destruct H as [->|H].
  - exists "". split; [reflexivity|]. split; [reflexivity|]. intros ip. reflexivity.
  - apply matches_seq_inv in H. destruct H as (s1 & s2 & -> & H1 & H2).
    apply matches_cls_inv in H1. destruct H1 as (c & -> & E).
    apply Ascii.eqb_eq in E. subst c.
    apply matches_plus_cls in H2. destruct H2 as [Hne Hz].
    exists s2. split; [|split].
    + apply (string_forall_impl (Ascii.eqb "0")); [|exact Hz].
      intros c E. apply Ascii.eqb_eq in E. subst c. reflexivity.
    + apply digits_value_zeros, Hz.
    + intros ip. apply decimalText_fraction, Hne.
Qed.

Lemma opt_sign_shape (t : string) :
  Matches (Opt sign) t -> t = "" \/ t = "-" \/ t = "+".
Proof.
  intros H. apply matches_opt_inv in H. destruct H as [->|H]; [auto|].
  apply matches_cls_inv in H. destruct H as (c & -> & E).
  apply orb_true_iff in E. destruct E as [E|E]; apply Ascii.eqb_eq in E; subst; auto.
Qed.

Lemma digits_value_one (c : ascii) : digits_value (String c "") = digit_value c.
Proof. unfold digits_value. cbn [digits_value_from]. lia. Qed.

Lemma digits_value_two (a b : ascii) :
  digits_value (String a (String b "")) = 10 * digit_value a + digit_value b.
Proof. unfold digits_value. cbn [digits_value_from]. lia. Qed.

Lemma digits_value_three (a b c : ascii) :
  digits_value (String a (String b (String c "")))
  = 100 * digit_value a + 10 * digit_value b + digit_value c.
Proof. unfold digits_value. cbn [digits_value_from]. lia. Qed.

Lemma latitude_shape (t : string) :
  Matches latitudePattern t ->
  exists ip fd,
    t = decimalText ip fd
    /\ string_forall is_digit ip = true /\ ip <> ""
    /\ string_forall is_digit fd = true
    /\ (digits_value ip <= 90 - 1 \/ (digits_value ip = 90 /\ digits_value fd = 0)).
Proof.
  intros H. apply matches_alt_inv in H. destruct H as [H|H].
  - apply matches_seq_inv in H. destruct H as (o & rest & -> & Ho & H).
    apply matches_seq_inv in H. destruct H as (d & f & -> & Hd & Hf).
    apply matches_cls_inv in Hd. destruct Hd as (c & -> & Hc).
    apply opt_fraction_shape in Hf. destruct Hf as (fd & Hfd & Hf).
    pose proof (digit_value_bounds c Hc) as Bc.
    apply matches_opt_inv in Ho. destruct Ho as [->|Ho].
    + exists (String c ""), fd. rewrite <- Hf.
      split; [reflexivity|]. split; [cbn [string_forall]; rewrite Hc; reflexivity|].
      split; [discriminate|]. split; [exact Hfd|].
      left. rewrite digits_value_one. lia.
    + apply matches_cls_inv in Ho. destruct Ho as (c0 & -> & Hc0).
      apply (in_range_digit "1" "8") in Hc0; [|reflexivity|reflexivity].
      destruct Hc0 as [Hd0 B0]. change (digit_value "8") with 8 in B0.
      exists (String c0 (String c "")), fd. rewrite <- Hf.
      split; [reflexivity|].
      split; [cbn [string_forall]; rewrite Hd0, Hc; reflexivity|].
      split; [discriminate|]. split; [exact Hfd|].
      left. rewrite digits_value_two. lia.
  - apply matches_seq_inv in H. destruct H as (l & z & -> & Hl & Hz).
    apply matches_lit_inv in Hl. subst l.
    apply opt_zeros_shape in Hz. destruct Hz as (fd & Hfd & Hzero & Hz).
    exists "90", fd. rewrite <- Hz.
    split; [reflexivity|]. split; [reflexivity|]. split; [discriminate|].
    split; [exact Hfd|]. right. split; [reflexivity|exact Hzero].
Qed.

Lemma longitude_shape (t : string) :
  Matches longitudePattern t ->
  exists ip fd,
    t = decimalText ip fd
    /\ string_forall is_digit ip = true /\ ip <> ""
    /\ string_forall is_digit fd = true
    /\ (digits_value ip <= 180 - 1 \/ (digits_value ip = 180 /\ digits_value fd = 0)).
Proof.
  intros H. apply matches_alt_inv in H. destruct H as [H|H].
  - apply matches_seq_inv in H. destruct H as (l & z & -> & Hl & Hz).
    apply matches_lit_inv in Hl. subst l.
    apply opt_zeros_shape in Hz. destruct Hz as (fd & Hfd & Hzero & Hz).
    exists "180", fd. rewrite <- Hz.
    split; [reflexivity|]. split; [reflexivity|]. split; [discriminate|].
    split; [exact Hfd|]. right. split; [reflexivity|exact Hzero].
  - apply matches_seq_inv in H. destruct H as (ip & f & -> & Hip & Hf).
    apply opt_fraction_shape in Hf. destruct Hf as (fd & Hfd & Hf).
    exists ip, fd. split; [apply Hf|].
    apply matches_alt_inv in Hip. destruct Hip as [H|H].
    + apply matches_seq_inv in H. destruct H as (a & rest & -> & Ha & H).
      apply matches_seq_inv in H. destruct H as (b & c & -> & Hb & Hc).
      apply matches_cls_inv in Ha, Hb, Hc.
      destruct Ha as (ca & -> & Ea), Hb as (cb & -> & Eb), Hc as (cc & -> & Ec).
      apply Ascii.eqb_eq in Ea. subst ca.
      apply (in_range_digit "0" "7") in Eb; [|reflexivity|reflexivity].
      destruct Eb as [Db Bb]. change (digit_value "7") with 7 in Bb.
      pose proof (digit_value_bounds cc Ec) as Bc.
      split; [cbn [append string_forall]; rewrite Db, Ec; reflexivity|].
      split; [discriminate|]. split; [exact Hfd|].
      left. cbn [append]. rewrite digits_value_three.
      change (digit_value "1") with 1. lia.
    + apply matches_seq_inv in H. destruct H as (o & d & -> & Ho & Hd).
      apply matches_cls_inv in Hd. destruct Hd as (c & -> & Hc).
      pose proof (digit_value_bounds c Hc) as Bc.
      apply matches_opt_inv in Ho. destruct Ho as [->|Ho].
      * split; [cbn [append string_forall]; rewrite Hc; reflexivity|].
        split; [discriminate|]. split; [exact Hfd|].
        left. cbn [append]. rewrite digits_value_one. lia.
      * apply matches_cls_inv in Ho. destruct Ho as (c0 & -> & Hc0).
        apply (in_range_digit "1" "9") in Hc0; [|reflexivity|reflexivity].
        destruct Hc0 as [Hd0 B0]. change (digit_value "9") with 9 in B0.
        split; [cbn [append string_forall]; rewrite Hd0, Hc; reflexivity|].
        split; [discriminate|]. split; [exact Hfd|].
        left. cbn [append]. rewrite digits_value_two. lia.
Qed.

Lemma sign_class (p : ascii -> bool) (sg : string) :
  p "-"%char = true -> p "+"%char = true ->
  sg = "" \/ sg = "-" \/ sg = "+" -> string_forall p sg = true.
Proof.
  intros Hm Hp [->|[->| ->]]; cbn [string_forall]; rewrite ?Hm, ?Hp; reflexivity.
Qed.

(** A string accepted by [coordRegex] is two signed decimals separated by
    one comma, the first at most 90 and the second at most 180 in absolute
    value. *)
Lemma coordinate_text (s : string) :
  Matches coordRegex s ->
  exists a b qa qb,
    s = a ++ "," ++ b
    /\ string_forall notComma a = true /\ string_forall notComma b = true
    /\ Number_ofString a = Some qa
    /\ (inject_Z (-90) <= qa)%Q /\ (qa <= inject_Z 90)%Q
    /\ Number_ofString b = Some qb
    /\ (inject_Z (-180) <= qb)%Q /\ (qb <= inject_Z 180)%Q.
Proof.
  intros H.
  apply matches_seq_inv in H. destruct H as (sg1 & r1 & -> & Hsg1 & H).
  apply matches_seq_inv in H. destruct H as (lat & r2 & -> & Hlat & H).
  apply matches_seq_inv in H. destruct H as (comma & r3 & -> & Hcomma & H).
  apply matches_seq_inv in H. destruct H as (ws & r4 & -> & Hws & H).
  apply matches_seq_inv in H. destruct H as (sg2 & lng & -> & Hsg2 & Hlng).
  apply opt_sign_shape in Hsg1, Hsg2.
  apply matches_cls_inv in Hcomma. destruct Hcomma as (c & -> & Ec).
  apply Ascii.eqb_eq in Ec. subst c.
  apply matches_star_cls in Hws.
  apply latitude_shape in Hlat.
  destruct Hlat as (ip1 & fd1 & -> & Hip1 & Hne1 & Hfd1 & B1).
  apply longitude_shape in Hlng.
  destruct Hlng as (ip2 & fd2 & -> & Hip2 & Hne2 & Hfd2 & B2).
  destruct (Number_of_signed_decimal "" sg1 ip1 fd1 90 eq_refl Hsg1 Hip1 Hne1 Hfd1 B1)
    as (qa & Hqa & Hqa1 & Hqa2).
  destruct (Number_of_signed_decimal ws sg2 ip2 fd2 180 Hws Hsg2 Hip2 Hne2 Hfd2 B2)
    as (qb & Hqb & Hqb1 & Hqb2).
  exists (sg1 ++ decimalText ip1 fd1), (ws ++ sg2 ++ decimalText ip2 fd2), qa, qb.
  split; [rewrite append_assoc; reflexivity|].
  split.
  { rewrite string_forall_app, (sign_class notComma sg1) by (reflexivity || exact Hsg1).
    apply decimalText_class; auto using digit_notComma. }
  split.
  { rewrite !string_forall_app.
    rewrite (string_forall_impl _ _ _ space_notComma Hws).
    rewrite (sign_class notComma sg2) by (reflexivity || exact Hsg2).
    apply decimalText_class; auto using digit_notComma. }
  repeat split; assumption.
Qed.

(** C2, as stated, fails in both directions: ["+1,2"] is sent as a
    coordinate pair although the quoted pattern has no [+], and ["05,5"]
    is sent as an address although it matches the quoted pattern with both
    numbers in range. *)
Lemma quoted_pattern_disagrees_with_source :
  (isCoordinatePair (waypointOf "origin" (VStr "+1,2")) = true
   /\ specIsCoordinate "+1,2" = false)
  /\ (isCoordinatePair (waypointOf "origin" (VStr "05,5")) = false
      /\ specIsCoordinate "05,5" = true).
Proof. repeat split; reflexivity. Qed.

(** C2, amended. In [maps_distance_matrix] and [maps_directions], an
    origin or destination string is sent as a coordinate pair exactly when
    the pattern of the source,
    [^[-+]?([1-8]?\d(\.\d+)?|90(\.0+)?),\s*[-+]?(180(\.0+)?|((1[0-7]\d)|([1-9]?\d))(\.\d+)?)$],
    accepts it; the latitude sent is then within [-90, 90] and the longitude
    within [-180, 180]. Every other string is sent as an address. *)
Theorem coordinate_classification (expr s : string) :
  (Matches coordRegex s
   /\ exists lat lng,
        waypointOf expr (VStr s) = Ok (latLngWaypoint lat lng)
        /\ (inject_Z (-90) <= lat)%Q /\ (lat <= inject_Z 90)%Q
        /\ (inject_Z (-180) <= lng)%Q /\ (lng <= inject_Z 180)%Q)
  \/ (~ Matches coordRegex s
      /\ waypointOf expr (VStr s) = Ok (VObj [ ("address", VStr s) ])).
Proof.
  unfold waypointOf. cbn [ToString].
  destruct (regex_test coordRegex s) eqn:T.
  - left. apply regex_test_spec in T. split; [exact T|].
    destruct (coordinate_text s T)
      as (a & b & qa & qb & -> & Ha & Hb & Hqa & La & Ua & Hqb & Lb & Ub).
    exists qa, qb. split; [|repeat split; assumption].
    unfold splitLatLng. rewrite (split_on_once a b Ha Hb).
    cbn [map]. rewrite Hqa, Hqb. reflexivity.
  - right. split; [|reflexivity].
    intros H. apply regex_test_spec in H. congruence.
Qed.

(** * Further properties of the handlers *)

(** ** What a call does to the network *)

Lemma fetches_app (t1 t2 : list event) :
  fetches (t1 ++ t2) = (fetches t1 ++ fetches t2)%list.
Proof.
  induction t1 as [|[rq|line] t1 IH]; [reflexivity| |exact IH].
  change (rq :: fetches (t1 ++ t2) = rq :: (fetches t1 ++ fetches t2)%list).
  rewrite IH. reflexivity.
Qed.

Lemma silent_lift {A : Type} (r : Result A) : silent (lift r).
Proof. reflexivity. Qed.

Lemma silent_console_error (line : string) : silent (console_error line).
Proof. reflexivity. Qed.

Lemma silent_bind {A B : Type} (m : IO A) (k : A -> IO B) :
  silent m -> (forall a, silent (k a)) -> silent (io_bind m k).
Proof.
  unfold silent, io_bind. intros Hm Hk. destruct m as [[a|e] t]; [|exact Hm].
  specialize (Hk a). destruct (k a) as [r t']. cbn [snd] in *.
  rewrite fetches_app, Hm, Hk. reflexivity.
Qed.

Lemma silent_try_catch {A : Type} (m : IO A) (h : thrown -> IO A) :
  silent m -> (forall e, silent (h e)) -> silent (try_catch m h).
Proof.
  unfold silent, try_catch. intros Hm Hh. destruct m as [[a|e] t]; [exact Hm|].
  specialize (Hh e). destruct (h e) as [r t']. cbn [snd] in *.
  rewrite fetches_app, Hm, Hh. reflexivity.
Qed.

Lemma requests_silent {A : Type} (P : HttpRequest -> Prop) (n : nat) (m : IO A) :
  silent m -> requests P n m.
Proof.
  unfold silent, requests. intros ->. split; [constructor | simpl; lia].
Qed.

Lemma requests_fetch {A : Type} (P : HttpRequest -> Prop) (env : Env)
    (rq : HttpRequest) (k : Response -> IO A) :
  P rq -> (forall resp, silent (k resp)) ->
  requests P 1 (io_bind (do_fetch env rq) k).
Proof.
  unfold silent, requests, io_bind, do_fetch. intros Hrq Hk.
  destruct (fetch env rq) as [resp|e].
  - specialize (Hk resp). destruct (k resp) as [r t]. cbn [snd] in *.
    rewrite fetches_app, Hk. split; [repeat constructor; exact Hrq | simpl; lia].
  - split; [repeat constructor; exact Hrq | simpl; lia].
Qed.

Lemma requests_bind_silent {A B : Type} (P : HttpRequest -> Prop) (n : nat)
    (m : IO A) (k : A -> IO B) :
  silent m -> (forall a, requests P n (k a)) -> requests P n (io_bind m k).
Proof.
  unfold silent, requests, io_bind. intros Hm Hk. destruct m as [[a|e] t].
  - specialize (Hk a). destruct (k a) as [r t']. cbn [snd] in *.
    rewrite fetches_app, Hm. exact Hk.
  - cbn [snd] in *. rewrite Hm. split; [constructor | simpl; lia].
Qed.

Lemma requests_try_catch {A : Type} (P : HttpRequest -> Prop) (n : nat)
    (m : IO A) (h : thrown -> IO A) :
  requests P n m -> (forall e, silent (h e)) -> requests P n (try_catch m h).
Proof.
  unfold silent, requests, try_catch. intros Hm Hh. destruct m as [[a|e] t]; [exact Hm|].
  specialize (Hh e). destruct (h e) as [r t']. cbn [snd] in *.
  rewrite fetches_app, Hh, app_nil_r. exact Hm.
Qed.

Ltac silence :=
  repeat first
    [ apply silent_lift
    | apply silent_console_error
    | apply silent_bind; [| intro]
    | apply silent_try_catch; [| intro]
    | match goal with |- silent (if ?b then _ else _) => destruct b end ].

(** The requests of a call to a tool that queries the Geocoding or the
    Elevation API, and those of the other tools. *)
Lemma legacy_requests (env : Env) (request : CallToolRequest) :
  In (name request) legacyTools ->
  requests (keyInQuery (GOOGLE_MAPS_API_KEY env)) 1 (callTool env request).
Proof.
  intros Hname. unfold callTool. apply requests_try_catch; [|intro; apply silent_lift].
  unfold dispatch.
  destruct Hname as [<- | [<- | [<- | []]]]; cbn [String.eqb Ascii.eqb Bool.eqb];
    apply requests_bind_silent; try apply silent_lift; intro.
  - unfold handleGeocode. apply requests_fetch; [|intro; silence].
    repeat split.
  - unfold handleReverseGeocode. apply requests_fetch; [|intro; silence].
    repeat split.
  - unfold handleElevation. apply requests_bind_silent; [apply silent_lift|]. intro.
    apply requests_fetch; [|intro; silence].
    repeat split.
Qed.

Lemma new_api_requests (env : Env) (request : CallToolRequest) :
  ~ In (name request) legacyTools ->
  requests (keyInHeader (GOOGLE_MAPS_API_KEY env)) 1 (callTool env request).
Proof.
  intros Hname. unfold callTool. apply requests_try_catch; [|intro; apply silent_lift].
  unfold dispatch.
  repeat match goal with
  | |- requests _ _ (if String.eqb ?a ?b then _ else _) =>
      destruct (String.eqb_spec a b) as [E|_]
  end; try (exfalso; apply Hname; rewrite E; simpl; tauto);
    try (apply requests_bind_silent; [apply silent_lift|]; intro).
  - unfold handlePlaceSearch. apply requests_fetch; [|intro; silence].
    split; reflexivity.
  - unfold handlePlaceDetails.
    apply requests_try_catch; [|intro; silence].
    unfold placeDetailsAttempt. apply requests_fetch; [|intro; silence].
    split; reflexivity.
  - unfold handleDistanceMatrix. apply requests_bind_silent; [apply silent_lift|]. intro.
    apply requests_fetch; [|intro; silence].
    split; reflexivity.
  - unfold handleDirections. apply requests_bind_silent; [apply silent_lift|]. intro.
    apply requests_fetch; [|intro; silence].
    split; reflexivity.
  - apply requests_silent. apply silent_lift.
Qed.

(** X1. However a call ends, it has sent at most one request. *)
Theorem at_most_one_request (env : Env) (request : CallToolRequest) :
  (length (fetches (snd (callTool env request))) <= 1)%nat.
Proof.
  destruct (in_dec string_dec (name request) legacyTools) as [H|H].
  - exact (proj2 (legacy_requests env request H)).
  - exact (proj2 (new_api_requests env request H)).
Qed.

(** X2. The API key travels in one fixed place. The Geocoding and
    Elevation handlers append it to the URL as the parameter [key] of a
    plain [GET] without headers or body. The Places and Routes handlers
    send it as the header [X-Goog-Api-Key] and append no parameter to the
    URL they construct (the text of that URL, which for place details ends
    in the place id as given, is not looked into). *)
Theorem api_key_placement (env : Env) (request : CallToolRequest) (rq : HttpRequest) :
  In rq (fetches (snd (callTool env request))) ->
  (In (name request) legacyTools -> keyInQuery (GOOGLE_MAPS_API_KEY env) rq)
  /\ (~ In (name request) legacyTools -> keyInHeader (GOOGLE_MAPS_API_KEY env) rq).
Proof.
  intros Hin. split; intros Hname.
  - pose proof (proj1 (legacy_requests env request Hname)) as H.
    rewrite List.Forall_forall in H. exact (H rq Hin).
  - pose proof (proj1 (new_api_requests env request Hname)) as H.
    rewrite List.Forall_forall in H. exact (H rq Hin).
Qed.

(** ** Upstream failures of the Geocoding and Elevation APIs *)

Lemma bind_fetch_ok {A : Type} (env : Env) (rq : HttpRequest) (resp : Response)
    (k : Response -> IO A) :
  fetch env rq = Ok resp ->
  io_bind (do_fetch env rq) k = (fst (k resp), Fetched rq :: snd (k resp)).
Proof.
  intros H. unfold io_bind, do_fetch. rewrite H. destruct (k resp). reflexivity.
Qed.

Lemma try_catch_ok {A : Type} (a : A) (t : list event) (h : thrown -> IO A) :
  try_catch (Ok a, t) h = (Ok a, t).
Proof. reflexivity. Qed.

Lemma fst_try_catch_ok {A : Type} (m : IO A) (a : A) (h : thrown -> IO A) :
  fst m = Ok a -> fst (try_catch m h) = Ok a.
Proof. destruct m as [r t]. simpl. intros ->. reflexivity. Qed.




Lemma api_key_placement_witness :
  keyInQuery "key"
    (get {| href := "https://maps.googleapis.com/maps/api/geocode/json";
            searchParams := [ ("address", "Paris"); ("key", "key") ] |}).
Proof.
  refine (proj1 (api_key_placement
                   (answering 200 "OK" (VObj [ ("status", VStr "ZERO_RESULTS") ]))
                   {| name := "maps_geocode";
                      arguments := VObj [ ("address", VStr "Paris") ] |} _ _) _).
  - vm_compute. left. reflexivity.
  - simpl. tauto.
Defined.

(** ** Geocoding: the first result *)



(** ** Lists of upstream results *)

Lemma mapM_pure {A B : Type} (f : A -> Result B) (g : A -> B) (l : list A) :
  List.Forall (fun x => f x = Ok (g x)) l -> mapM f l = Ok (map g l).
Proof.
  induction 1 as [|x l Hx _ IH]; [reflexivity|].
  cbn [mapM map]. rewrite Hx. cbn [bind]. rewrite IH. reflexivity.
Qed.

Lemma mapM_throws {A B : Type} (f : A -> Result B) (l1 l2 : list A) (x : A)
    (g : A -> B) (e : thrown) :
  List.Forall (fun x => f x = Ok (g x)) l1 -> f x = Throw e ->
  mapM f (l1 ++ x :: l2) = Throw e.
Proof.
  induction 1 as [|y l Hy _ IH]; intros Hx.
  - cbn [app mapM]. rewrite Hx. reflexivity.
  - cbn [app mapM]. rewrite Hy. cbn [bind]. rewrite (IH Hx). reflexivity.
Qed.

Lemma Forall_defined {B : Type} (f : value -> Result B) (g : value -> B)
    (l : list value) :
  (forall x, nullish x = false -> f x = Ok (g x)) ->
  List.Forall (fun x => nullish x = false) l ->
  List.Forall (fun x => f x = Ok (g x)) l.
Proof. intros Hf H. eapply List.Forall_impl; [|exact H]. exact Hf. Qed.

(** ** Place search *)

(** X5. Whatever the HTTP status, an answer to a place search that lists its
    places, none of them [null], is a success: the tool returns one entry
    per upstream place, in the upstream order, each made of the place's
    display name, address, location, id, rating and types. *)
Theorem place_search_keeps_every_place (env : Env) (query location radius : value)
    (resp : Response) (data : value) (places : list value) :
  (forall rq, fetch env rq = Ok resp) -> json resp = Ok data ->
  getField data "places" = VArr places ->
  List.Forall (fun place => nullish place = false) places ->
  fst (handlePlaceSearch env query location radius)
  = Ok (result false
          (JSON_stringify 2
             (VObj [ ("places",
                      VArr (map (fun place =>
                                   VObj [ ("name", optProp (getField place "displayName") "text");
                                          ("formatted_address", getField place "formattedAddress");
                                          ("location",
                                           VObj [ ("lat", optProp (getField place "location") "latitude");
                                                  ("lng", optProp (getField place "location") "longitude") ]);
                                          ("place_id", getField place "id");
                                          ("rating", getField place "rating");
                                          ("types", getField place "types") ])
                              places)) ]))).
Proof.
  intros Hfetch Hjson Hplaces Hall.
  assert (Hdata : nullish data = false) by (destruct data; try reflexivity; discriminate).
  unfold handlePlaceSearch. rewrite (bind_fetch_ok _ _ _ _ (Hfetch _)). cbn [fst].
  rewrite Hjson, bind_lift_ok. unfold lift. cbn [fst].
  rewrite (getProp_defined data "places" Hdata), Hplaces.
  cbn [bind truthy negb callMap].
  erewrite mapM_pure; [reflexivity|].
  apply Forall_defined; [|exact Hall].
  intros place Hplace. unfold reshapePlace.
  rewrite !(getProp_defined place _ Hplace). reflexivity.
Qed.

Lemma place_search_keeps_every_place_witness :
  exists t,
    fst (handlePlaceSearch
           (answering 200 "OK"
              (VObj [ ("places", VArr [ VObj [ ("id", VStr "a") ];
                                        VObj [ ("id", VStr "b") ] ]) ]))
           (VStr "cafe") VUndef VUndef)
    = Ok (result false t).
Proof.
  eexists.
  refine (place_search_keeps_every_place
            (answering 200 "OK"
               (VObj [ ("places", VArr [ VObj [ ("id", VStr "a") ];
                                         VObj [ ("id", VStr "b") ] ]) ]))
            (VStr "cafe") VUndef VUndef _ _
            [ VObj [ ("id", VStr "a") ]; VObj [ ("id", VStr "b") ] ]
            (fun _ => eq_refl) eq_refl eq_refl _).
  repeat (apply List.Forall_cons; [reflexivity|]). apply List.Forall_nil.
Defined.

(** X6. An answer to a place search that has no [places] member and no error
    message is reported as a failure with the text ["Unknown error"], also
    under HTTP status 200. *)
Theorem place_search_without_places_fails (env : Env) (query location radius : value)
    (resp : Response) (data : value) :
  (forall rq, fetch env rq = Ok resp) -> json resp = Ok data ->
  nullish data = false ->
  truthy (getField data "places") = false ->
  truthy (optProp (getField data "error") "message") = false ->
  fst (handlePlaceSearch env query location radius)
  = Ok (result true "Place search failed: Unknown error").
Proof.
  intros Hfetch Hjson Hdata Hplaces Herror.
  unfold handlePlaceSearch. rewrite (bind_fetch_ok _ _ _ _ (Hfetch _)). cbn [fst].
  rewrite Hjson, bind_lift_ok. unfold lift. cbn [fst].
  rewrite (getProp_defined data "places" Hdata). cbn [bind].
  rewrite Hplaces. cbn [negb]. unfold or_else. rewrite Herror. reflexivity.
Qed.

Lemma place_search_without_places_fails_witness :
  fst (handlePlaceSearch (answering 200 "OK" (VObj [])) (VStr "cafe") VUndef VUndef)
  = Ok (result true "Place search failed: Unknown error").
Proof.
  exact (place_search_without_places_fails (answering 200 "OK" (VObj []))
           (VStr "cafe") VUndef VUndef _ _
           (fun _ => eq_refl) eq_refl eq_refl eq_refl eq_refl).
Defined.

(** ** Elevation *)



(** ** Opening hours *)

(** The text of a number depends on its value only, and for a whole
    number it is the numeral. *)
Lemma Number_toString_integer (q : Q) (z : Z) :
  (q == inject_Z z)%Q -> Number_toString q = Number_toString (inject_Z z).
Proof.
  destruct q as [n d]. unfold Qeq, Number_toString, inject_Z.
  cbn [Qnum Qden]. intros H. rewrite Z.mul_1_r in H. subst n.
  assert (Hd : 0 < Z.pos d) by lia.
  rewrite Z.abs_mul, (Z.abs_eq (Z.pos d)) by lia.
  rewrite Z.mod_mul, Z.div_mul by lia.
  rewrite Z.mod_1_r, Z.div_1_r.
  replace (z * Z.pos d <? 0) with (z <? 0); [reflexivity|].
  destruct (Z.ltb_spec z 0), (Z.ltb_spec (z * Z.pos d) 0); try reflexivity; nia.
Qed.

Lemma periodTime_table :
  forallb (fun h =>
             forallb (fun m =>
                        fourDigits h m
                          (periodTime (VNum (inject_Z (Z.of_nat h)))
                                      (VNum (inject_Z (Z.of_nat m)))))
               (seq 0 100))
    (seq 0 100) = true.
Proof. vm_compute. reflexivity. Qed.

(** X8. For an hour and a minute below 100, as numbers in whatever
    representation, the time of an opening-hours period is a string of
    exactly four digits, the hour before the minute, each padded with a
    zero when it is below 10. *)
Theorem period_time_four_digits (hour minute : Q) (h m : nat) :
  (hour == inject_Z (Z.of_nat h))%Q -> (minute == inject_Z (Z.of_nat m))%Q ->
  (h < 100)%nat -> (m < 100)%nat ->
  exists t,
    periodTime (VNum hour) (VNum minute) = VStr t
    /\ String.length t = 4%nat
    /\ string_forall is_digit t = true
    /\ digits_value t = Z.of_nat (100 * h + m).
Proof.
  intros Hhour Hminute Hh Hm.
  pose proof periodTime_table as T.
  rewrite forallb_forall in T. specialize (T h).
  rewrite in_seq in T. specialize (T ltac:(lia)).
  rewrite forallb_forall in T. specialize (T m).
  rewrite in_seq in T. specialize (T ltac:(lia)).
  unfold periodTime in *. cbn [ToString] in *.
  rewrite (Number_toString_integer hour _ Hhour),
          (Number_toString_integer minute _ Hminute).
  unfold fourDigits in T.
  apply andb_prop in T. destruct T as [T T3].
  apply andb_prop in T. destruct T as [T1 T2].
  eexists. split; [reflexivity|].
  split; [apply Nat.eqb_eq; exact T1|].
  split; [exact T2 | apply Z.eqb_eq; exact T3].
Qed.

Lemma period_time_four_digits_witness :
  exists t,
    periodTime (VNum (18 # 2)) (VNum 5) = VStr t
    /\ String.length t = 4%nat
    /\ string_forall is_digit t = true
    /\ digits_value t = 905.
Proof.
  refine (period_time_four_digits (18 # 2) 5 9 5 _ _ _ _);
    [reflexivity | reflexivity | lia | lia].
Defined.

(** ** Place details: HTTP failures *)




(** ** Travel modes *)

Lemma googleTravelMode_unmapped (mode : string) :
  mem mode [ "driving"; "walking"; "bicycling"; "transit"; "two_wheeler" ] = false ->
  mem mode ("__proto__" :: objectPrototype) = false ->
  googleTravelMode (VStr mode) = VStr "DRIVE".
Proof.
  intros Hown Hproto. unfold googleTravelMode, travelModeMap. cbn [ToString].
  unfold getField.
  assert (Hassoc : assoc mode [ ("driving", VStr "DRIVE"); ("walking", VStr "WALK");
                                ("bicycling", VStr "BICYCLE"); ("transit", VStr "TRANSIT");
                                ("two_wheeler", VStr "TWO_WHEELER") ] = None).
  { unfold mem in Hown. cbn [existsb] in Hown. cbn [assoc].
    repeat (apply orb_false_iff in Hown; destruct Hown as [-> Hown]). reflexivity. }
  rewrite Hassoc.
  change (mem mode ("__proto__" :: objectPrototype))
    with (String.eqb mode "__proto__" || mem mode objectPrototype) in Hproto.
  apply orb_false_iff in Hproto. destruct Hproto as [-> Hp].
  unfold inherited. rewrite Hp. reflexivity.
Qed.

(** X10. A mode that is none of the five the tools declare, and not the name
    of a property every object inherits, is treated as ["driving"] without
    notice: the directions and the distance-matrix tools then do exactly
    what they do for ["driving"]. *)
Theorem unrecognised_mode_is_driving (env : Env) (a b : value) (mode : string) :
  mem mode [ "driving"; "walking"; "bicycling"; "transit"; "two_wheeler" ] = false ->
  mem mode ("__proto__" :: objectPrototype) = false ->
  handleDirections env a b (VStr mode) = handleDirections env a b (VStr "driving")
  /\ handleDistanceMatrix env a b (VStr mode)
     = handleDistanceMatrix env a b (VStr "driving").
Proof.
  intros Hown Hproto.
  pose proof (googleTravelMode_unmapped mode Hown Hproto) as Hmode.
  assert (Hdriving : googleTravelMode (VStr "driving") = VStr "DRIVE") by reflexivity.
  split.
  - unfold handleDirections, directionsRequestBody. cbn [defaulted].
    rewrite Hmode, Hdriving. reflexivity.
  - unfold handleDistanceMatrix, distanceMatrixRequestBody. cbn [defaulted].
    rewrite Hmode, Hdriving. reflexivity.
Qed.

Lemma unrecognised_mode_is_driving_witness :
  handleDirections (answering 200 "OK" (VObj [])) (VStr "A") (VStr "B") (VStr "DRIVING")
  = handleDirections (answering 200 "OK" (VObj [])) (VStr "A") (VStr "B") (VStr "driving").
Proof.
  exact (proj1 (unrecognised_mode_is_driving (answering 200 "OK" (VObj []))
                  (VStr "A") (VStr "B") "DRIVING" eq_refl eq_refl)).
Defined.

(** ** Directions *)


















(** ** The route matrix, from the answer to the rows *)







Lemma storeItem_length (rows rows' : list (list value)) (item : value) :
  storeItem rows item = Ok rows' -> length rows' = length rows.
Proof.
  unfold storeItem, matrixStore, bind. intros H.
  repeat case_match; try discriminate.
  injection H as <-. apply length_insert.
Qed.

Lemma storeItem_origin_outside (rows : list (list value)) (item : value) :
  nullish item = false -> originOutside (length rows) item ->
  storeItem rows item = Throw (cannot_read "undefined" "elements").
Proof.
  intros Hitem Hout. unfold storeItem.
  rewrite (getProp_defined _ _ Hitem). cbn [bind]. unfold matrixStore.
  assert (Hrow : getField (VArr (map rowObject rows))
                   (ToString (getField item "originIndex")) = VUndef).
  { destruct Hout as [-> | (i & Hi & Hlen & Bi)]; [reflexivity|].
    rewrite (getField_array_index _ _ i (array_index_of_index _ _ Hi Bi)).
    rewrite lookup_map, (lookup_ge_None_2 rows i) by lia. reflexivity. }
  rewrite Hrow. reflexivity.
Qed.

Lemma foldM_origin_outside (items : list value) (item : value) :
  In item items -> nullish item = false ->
  forall rows, originOutside (length rows) item ->
  exists e, foldM storeItem rows items = Throw e.
Proof.
  intros Hin Hitem. induction items as [|x l IH]; [destruct Hin|].
  intros rows Hout. cbn [foldM].
  destruct (storeItem rows x) as [rows1|e] eqn:Hx; [|eexists; reflexivity].
  cbn [bind]. destruct Hin as [->|Hin].
  - rewrite (storeItem_origin_outside rows item Hitem Hout) in Hx. discriminate.
  - apply (IH Hin). rewrite (storeItem_length _ _ _ Hx). exact Hout.
Qed.

Lemma fst_try_catch_throw {A : Type} (m : IO A) (e : thrown) (h : thrown -> IO A) :
  fst m = Throw e -> fst (try_catch m h) = fst (h e).
Proof. destruct m as [r t]. simpl. intros ->. destruct (h e). reflexivity. Qed.

Lemma callTool_error (env : Env) (request : CallToolRequest) :
  (exists e, fst (dispatch env request) = Throw e)
  \/ (exists msg, fst (dispatch env request) = Ok (result true msg)) ->
  exists msg, fst (callTool env request) = Ok (result true msg).
Proof.
  unfold callTool. intros [[e H] | [msg H]].
  - eexists. rewrite (fst_try_catch_throw _ _ _ H). reflexivity.
  - exists msg. apply fst_try_catch_ok, H.
Qed.

(** X15. One entry of the upstream answer whose [originIndex] is missing, or
    is not below the number of origins, makes the whole distance-matrix
    call an error, whatever the other entries are. *)
Theorem matrix_entry_without_origin_fails (env : Env) (args : value)
    (resp : Response) (items : list value) (item : value) :
  (forall rq, fetch env rq = Ok resp) -> json resp = Ok (VArr items) ->
  In item items -> nullish item = false ->
  originOutside (array_length (getField args "origins")) item ->
  exists msg,
    fst (callTool env {| name := "maps_distance_matrix"; arguments := args |})
    = Ok (result true msg).
Proof.
  intros Hfetch Hjson Hin Hitem Hout. apply callTool_error.
  unfold dispatch. cbn [name arguments String.eqb Ascii.eqb Bool.eqb].
  unfold destructure. destruct (nullish args).
  { left. eexists. reflexivity. }
  rewrite bind_lift_ok. unfold handleDistanceMatrix.
  destruct (distanceMatrixRequestBody _ _ _) as [requestBody|e].
  2:{ left. eexists. reflexivity. }
  rewrite bind_lift_ok. rewrite (bind_fetch_ok _ _ _ _ (Hfetch _)). cbn [fst].
  rewrite Hjson, bind_lift_ok. unfold lift. cbn [fst].
  rewrite getProp_defined by reflexivity.
  destruct (negb (status resp =? 200)).
  { right. eexists. reflexivity. }
  cbn [bind].
  destruct (truthy (getField (VArr items) "0") && _).
  { right. eexists. reflexivity. }
  destruct (foldM_origin_outside items item Hin Hitem
              (replicate (array_length (getField args "origins"))
                 (replicate (array_length (getField args "destinations")) VNull)))
    as [e He].
  { rewrite length_replicate. exact Hout. }
  left. exists e. cbn [reassemble]. rewrite He. reflexivity.
Qed.

Lemma matrix_entry_without_origin_fails_witness :
  exists msg,
    fst (callTool
           (answering 200 "OK"
              (VArr [ VObj [ ("destinationIndex", VNum 0); ("duration", VStr "60s");
                             ("distanceMeters", VNum 1200) ] ]))
           {| name := "maps_distance_matrix";
              arguments := VObj [ ("origins", VArr [ VStr "A" ]);
                                  ("destinations", VArr [ VStr "B" ]) ] |})
    = Ok (result true msg).
Proof.
  refine (matrix_entry_without_origin_fails
            (answering 200 "OK"
               (VArr [ VObj [ ("destinationIndex", VNum 0); ("duration", VStr "60s");
                              ("distanceMeters", VNum 1200) ] ]))
            (VObj [ ("origins", VArr [ VStr "A" ]);
                    ("destinations", VArr [ VStr "B" ]) ])
            _ _ _ (fun _ => eq_refl) eq_refl (or_introl eq_refl) eq_refl _).
  left. reflexivity.
Defined.

(** ** The advertised tools and their arguments *)

Lemma toolName_listed : map toolName toolDescriptors = MAPS_TOOLS.
Proof. reflexivity. Qed.

Ltac descriptor_cases H :=
  unfold toolDescriptors in H; cbn [In] in H;
  destruct H as [<- | [<- | [<- | [<- | [<- | [<- | [<- | []]]]]]]].

Ltac agree H k :=
  rewrite (H k) by (vm_compute; tauto).

(** X16. A call reads the arguments its tool declares and nothing else: two
    argument objects that agree on the declared properties of the tool's
    input schema give the same requests and the same result. *)
Theorem undeclared_arguments_ignored (env : Env) (tool args args' : value) :
  In tool toolDescriptors ->
  nullish args = false -> nullish args' = false ->
  (forall k, In k (declaredArguments tool) -> getField args k = getField args' k) ->
  callTool env {| name := toolName tool; arguments := args |}
  = callTool env {| name := toolName tool; arguments := args' |}.
Proof.
  intros Hin Hargs Hargs' H. unfold callTool, dispatch. cbn [name arguments].
  unfold destructure. rewrite Hargs, Hargs'.
  descriptor_cases Hin.
  - change (toolName GEOCODE_TOOL) with "maps_geocode".
    cbn [String.eqb Ascii.eqb Bool.eqb].
    agree H "address". reflexivity.
  - change (toolName REVERSE_GEOCODE_TOOL) with "maps_reverse_geocode".
    cbn [String.eqb Ascii.eqb Bool.eqb].
    agree H "latitude". agree H "longitude". reflexivity.
  - change (toolName SEARCH_PLACES_TOOL) with "maps_search_places".
    cbn [String.eqb Ascii.eqb Bool.eqb].
    agree H "query". agree H "location". agree H "radius". reflexivity.
  - change (toolName PLACE_DETAILS_TOOL) with "maps_place_details".
    cbn [String.eqb Ascii.eqb Bool.eqb].
    agree H "place_id". reflexivity.
  - change (toolName DISTANCE_MATRIX_TOOL) with "maps_distance_matrix".
    cbn [String.eqb Ascii.eqb Bool.eqb].
    agree H "origins". agree H "destinations". agree H "mode". reflexivity.
  - change (toolName ELEVATION_TOOL) with "maps_elevation".
    cbn [String.eqb Ascii.eqb Bool.eqb].
    agree H "locations". reflexivity.
  - change (toolName DIRECTIONS_TOOL) with "maps_directions".
    cbn [String.eqb Ascii.eqb Bool.eqb].
    agree H "origin". agree H "destination". agree H "mode". reflexivity.
Qed.

Lemma undeclared_arguments_ignored_witness :
  callTool (answering 200 "OK" (VObj [ ("status", VStr "ZERO_RESULTS") ]))
    {| name := "maps_geocode";
       arguments := VObj [ ("address", VStr "Paris"); ("language", VStr "fr") ] |}
  = callTool (answering 200 "OK" (VObj [ ("status", VStr "ZERO_RESULTS") ]))
      {| name := "maps_geocode"; arguments := VObj [ ("address", VStr "Paris") ] |}.
Proof.
  refine (undeclared_arguments_ignored
            (answering 200 "OK" (VObj [ ("status", VStr "ZERO_RESULTS") ]))
            GEOCODE_TOOL
            (VObj [ ("address", VStr "Paris"); ("language", VStr "fr") ])
            (VObj [ ("address", VStr "Paris") ])
            (or_introl eq_refl) eq_refl eq_refl _).
  intros k [<- | []]. reflexivity.
Defined.

(** X17. A call to an advertised tool without an argument object sends no
    request: it ends as an error that names the first property the tool's
    input schema declares. *)
Theorem missing_arguments_rejected (env : Env) (tool args : value) :
  In tool toolDescriptors -> nullish args = true ->
  callTool env {| name := toolName tool; arguments := args |}
  = (Ok (result true
           ("Error: Cannot destructure property '"
              ++ hd "" (declaredArguments tool)
              ++ "' of 'request.params.arguments' as it is "
              ++ describe_nullish args ++ ".")),
     []).
Proof.
  intros Hin Hargs. unfold callTool, dispatch. cbn [name arguments].
  unfold destructure. rewrite Hargs.
  descriptor_cases Hin; reflexivity.
Qed.

Lemma missing_arguments_rejected_witness :
  callTool (answering 200 "OK" (VObj [])) {| name := "maps_elevation"; arguments := VUndef |}
  = (Ok (result true
           "Error: Cannot destructure property 'locations' of 'request.params.arguments' as it is undefined."),
     []).
Proof.
  exact (missing_arguments_rejected (answering 200 "OK" (VObj [])) ELEVATION_TOOL VUndef
           (or_intror (or_intror (or_intror (or_intror (or_intror (or_introl eq_refl))))))
           eq_refl).
Defined.

(** ** Failures of the Routes API *)



(** ** Place details: an incomplete viewport *)



(** ** Arguments that are not there *)




